(** * hkd-form-app: the client-side PDF form filler ([src/lib/pdf-utils.ts])

    A shallow embedding of [pdf-utils.ts] and proofs about it.

    - JavaScript strings are [string]s.  Data URLs and base64 text are
      ASCII; the binary string returned by [atob] has one character per
      byte, which is exactly a Rocq [string].  Field texts are only tested
      for emptiness and passed on, so any encoding of them will do.
    - A [Uint8Array] is a [list byte].
    - A JavaScript [number] is an IEEE 754 binary64 [float]; pixel sizes and
      byte counts, which are integers, are [Z].
    - [Record<string,string>] objects that are only read are [gmap]s; the one
      that is built and then enumerated ([pdfFieldData]) is an association
      list in insertion order.
    - The browser and pdf-lib are a record of oracles ([Platform]), each
      answering by the arguments of the call; code that can throw runs in a
      state-and-exception monad with [try_catch].  [await] is sequencing:
      one call runs from start to end.
    - The tables of [./form-fields] ([FORM_FIELDS], [FIELD_COORDS],
      [PHOTO_BOX], [SIGNATURE_POSITIONS]) are parameters ([FormTables]). *)

From Stdlib Require Import ZArith NArith List String Ascii Floats Uint63 Lia ZifyNat.
From Stdlib.Strings Require Import Byte.
From stdpp Require Import base option list gmap strings.

Local Open Scope string_scope.
Local Open Scope list_scope.

(** Linear arithmetic over [N] with division and remainder by constants. *)
Ltac nlia := zify; Z.to_euclidean_division_equations; lia.

(** ** JavaScript values and completions *)

Module JS.

(** A thrown value; only its name is kept. *)
Record Exn := mkExn { exn_name : string }.

(** How an evaluation ends: normally with a value, or by throwing. *)
Inductive Completion (A : Type) :=
| Normal (a : A)
| Throw (e : Exn).
Arguments Normal {A} a.
Arguments Throw {A} e.

#[export] Instance completion_ret : MRet Completion := @Normal.
#[export] Instance completion_bind : MBind Completion := λ A B f m,
  match m with
  | Normal a => f a
  | Throw e => Throw e
  end.

(** [s.split(sep)] for a one-character separator: never empty. *)
Fixpoint split (sep : ascii) (s : string) : list string :=
  match s with
  | EmptyString => [EmptyString]
  | String c s' =>
      if Ascii.eqb c sep then EmptyString :: split sep s'
      else match split sep s' with
           | piece :: pieces => String c piece :: pieces
           | [] => [String c EmptyString]
           end
  end.

(** [s.includes(needle)]. *)
Fixpoint includes (needle s : string) : bool :=
  String.prefix needle s ||
  match s with
  | EmptyString => false
  | String _ s' => includes needle s'
  end.

(** [ToString] of a possibly [undefined] string argument. *)
Definition to_string (v : option string) : string :=
  match v with
  | Some s => s
  | None => "undefined"
  end.

(** Truthiness of a possibly [undefined] string: defined and non-empty. *)
Definition truthy (v : option string) : bool :=
  match v with
  | Some (String _ _) => true
  | _ => false
  end.

(** [s.charCodeAt(i)]; out of range is [NaN], which an integer typed
    array stores as 0. *)
Definition charCodeAt (s : string) (i : nat) : N :=
  match String.get i s with
  | Some c => N_of_ascii c
  | None => 0%N
  end.

(** Storing a number into a [Uint8Array] keeps it modulo 256. *)
Definition to_uint8 (n : N) : byte :=
  match Byte.of_N (n mod 256) with
  | Some b => b
  | None => x00
  end.

Definition contains_char (c : ascii) (s : string) : bool :=
  existsb (Ascii.eqb c) (list_ascii_of_string s).

End JS.
Import JS.

(** ** Base64 as the platform implements it

    [btoa] is RFC 4648 base64 with padding (what [FileReader.readAsDataURL]
    and [canvas.toDataURL] put after the comma); [atob] is the WHATWG
    forgiving-base64 decoder. *)

Module Base64.

Local Open Scope N_scope.

Definition alphabet : string :=
  "ABCDEFGHIJKLMNOPQRSTUVWXYZabcdefghijklmnopqrstuvwxyz0123456789+/".

Definition sextet_char (n : N) : ascii :=
  match String.get (N.to_nat n) alphabet with
  | Some c => c
  | None => "="%char
  end.

Definition char_sextet (c : ascii) : option N :=
  let k := N_of_ascii c in
  if (65 <=? k) && (k <=? 90) then Some (k - 65)
  else if (97 <=? k) && (k <=? 122) then Some (k - 71)
  else if (48 <=? k) && (k <=? 57) then Some (k + 4)
  else if k =? 43 then Some 62
  else if k =? 47 then Some 63
  else None.

(** Three bytes are one 24-bit group, read as four 6-bit groups; a last
    group of one or two bytes is filled with zero bits to 12 or 18 bits. *)
Fixpoint to_sextets (bs : list N) : list N :=
  match bs with
  | a :: b :: c :: rest =>
      let n := a * 65536 + b * 256 + c in
      n / 262144 :: (n / 4096) mod 64 :: (n / 64) mod 64 :: n mod 64
        :: to_sextets rest
  | [a; b] =>
      let n := (a * 256 + b) * 4 in
      [n / 4096; (n / 64) mod 64; n mod 64]
  | [a] =>
      let n := a * 16 in
      [n / 64; n mod 64]
  | [] => []
  end.

Fixpoint padding (bs : list N) : list ascii :=
  match bs with
  | _ :: _ :: _ :: rest => padding rest
  | [_; _] => ["="%char]
  | [_] => ["="%char; "="%char]
  | [] => []
  end.

Definition btoa_chars (bs : list N) : list ascii :=
  map sextet_char (to_sextets bs) ++ padding bs.

Definition btoa (bs : list byte) : string :=
  string_of_list_ascii (btoa_chars (map Byte.to_N bs)).

(** TAB, LF, FF, CR and SPACE. *)
Definition is_ascii_whitespace (c : ascii) : bool :=
  let k := N_of_ascii c in
  (k =? 9) || (k =? 10) || (k =? 12) || (k =? 13) || (k =? 32).

Definition strip_whitespace (data : list ascii) : list ascii :=
  List.filter (λ c, negb (is_ascii_whitespace c)) data.

Definition drop_trailing_eq (data : list ascii) : list ascii :=
  match rev data with
  | c :: r => if Ascii.eqb c "=" then rev r else data
  | [] => data
  end.

(** If the length is a multiple of four, one or two trailing [=] go. *)
Definition remove_padding (data : list ascii) : list ascii :=
  if (length data mod 4 =? 0)%nat
  then drop_trailing_eq (drop_trailing_eq data)
  else data.

(** The bit buffer, four sextets at a time; 12 left-over bits lose their
    last four, 18 lose their last two. *)
Fixpoint decode_sextets (sx : list N) : list N :=
  match sx with
  | s1 :: s2 :: s3 :: s4 :: rest =>
      let n := ((s1 * 64 + s2) * 64 + s3) * 64 + s4 in
      n / 65536 :: (n / 256) mod 256 :: n mod 256 :: decode_sextets rest
  | [s1; s2; s3] =>
      let n := ((s1 * 64 + s2) * 64 + s3) / 4 in
      [n / 256; n mod 256]
  | [s1; s2] => [(s1 * 64 + s2) / 16]
  | _ => []
  end.

Definition InvalidCharacterError : Exn := mkExn "InvalidCharacterError".

Definition atob (s : string) : Completion string :=
  let data := remove_padding (strip_whitespace (list_ascii_of_string s)) in
  if (length data mod 4 =? 1)%nat then Throw InvalidCharacterError
  else match mapM char_sextet data with
       | None => Throw InvalidCharacterError
       | Some sx =>
           Normal (string_of_list_ascii (map ascii_of_N (decode_sextets sx)))
       end.

End Base64.

(** ** [dataUrlToUint8Array] and [getImageType] *)

(** [const base64 = dataUrl.split(",")[1]; const binary = atob(base64);]
    then a zero-filled array of [binary.length] bytes is filled index by
    index with [binary.charCodeAt(i)]. *)
Definition dataUrlToUint8Array (dataUrl : string) : Completion (list byte) :=
  let base64 := split "," dataUrl !! 1%nat in
  binary ← Base64.atob (to_string base64);
  let n := String.length binary in
  mret (foldl (λ (bytes : list byte) i, <[i := to_uint8 (charCodeAt binary i)]> bytes)
              (replicate n x00) (seq 0 n)).

Inductive ImageType := png | jpg.

Definition getImageType (dataUrl : string) : ImageType :=
  if includes "image/png" dataUrl then png else jpg.

(** ** [validateImage] *)

Module Validation.

(** What [validateImage] reads of a [File]: [file.type] and [file.size]. *)
Record File := { file_type : string; file_size : Z }.

(** The [type] argument, ["photo"] or ["signature"]. *)
Inductive ImageKind := Photo | Signature.

Record Constraints := {
  maxSizeMB : Z;
  maxSizeBytes : Z;
  acceptedTypes : list string;
  minWidth : Z;
  minHeight : Z;
  maxWidth : Z;
  maxHeight : Z;
  recommendedWidth : Z;
  recommendedHeight : Z;
  aspectRatioMin : float;
  aspectRatioMax : float
}.

Definition constraints_of (type : ImageKind) : Constraints :=
  match type with
  | Photo =>
      {| maxSizeMB := 5;
         maxSizeBytes := 5 * 1024 * 1024;
         acceptedTypes := ["image/jpeg"; "image/png"; "image/jpg"];
         minWidth := 150;
         minHeight := 180;
         maxWidth := 2000;
         maxHeight := 2400;
         recommendedWidth := 300;
         recommendedHeight := 360;
         aspectRatioMin := 0x1.3333333333333p-1;  (* 0.6 *)
         aspectRatioMax := 1 |}
  | Signature =>
      {| maxSizeMB := 2;
         maxSizeBytes := 2 * 1024 * 1024;
         acceptedTypes := ["image/jpeg"; "image/png"; "image/jpg"];
         minWidth := 50;
         minHeight := 20;
         maxWidth := 2000;
         maxHeight := 1000;
         recommendedWidth := 400;
         recommendedHeight := 150;
         aspectRatioMin := 0.5;
         aspectRatioMax := 8 |}
  end.

(** The messages pushed on [errors], one constructor per template string,
    with the values the template interpolates. *)
Inductive ErrorMessage :=
| InvalidFileType (shown : string)
    (* `Invalid file type: ${file.type || "unknown"}. Please upload a JPG or PNG image.` *)
| FileSizeExceeds (size maxMB : Z)
    (* `File size (${(file.size / 1024 / 1024).toFixed(1)}MB) exceeds the maximum of ${maxSizeMB}MB.` *)
| ImageTooSmall (width height minW minH : Z)
    (* `Image is too small (${width}x${height}px). Minimum size: ${minWidth}x${minHeight}px.` *)
| CouldNotRead.
    (* "Could not read image file. It may be corrupted." *)

(** The messages pushed on [warnings]. *)
Inductive WarningMessage :=
| ImageVeryLarge (width height recW recH : Z)
    (* `Image is very large (${width}x${height}px). It will be resized. Recommended: ...` *)
| UnusualAspectPortrait (aspectRatio : float) (type : ImageKind)
    (* `Image aspect ratio (...) is unusual for a ${type}. A portrait orientation (ratio ~0.75) is recommended.` *)
| UnusualAspectLandscape (aspectRatio : float) (type : ImageKind).
    (* `... A landscape orientation (ratio ~2.5) is recommended.` *)

Record ImageValidationResult := {
  valid : bool;
  errors : list ErrorMessage;
  warnings : list WarningMessage;
  dimensions : option (Z * Z)
}.

(** What the browser reports after [img.src = objectUrl]: [onload] with the
    decoded pixel size, or [onerror]. *)
Inductive ImageEvent :=
| onload (width height : Z)
| onerror.

(** An integer as a [number]; exact below 2^53 in absolute value, which
    covers pixel sizes (unsigned 32-bit). *)
Definition number_of_Z (n : Z) : float :=
  match n with
  | Z0 => 0%float
  | Zpos _ => PrimFloat.of_uint63 (Uint63.of_Z n)
  | Zneg _ => (- PrimFloat.of_uint63 (Uint63.of_Z (- n)))%float
  end.

(** [file.type || "unknown"]. *)
Definition type_or_unknown (t : string) : string :=
  if truthy (Some t) then t else "unknown".

(** The promise never rejects; it resolves with the returned result from
    whichever of the two handlers the browser calls. *)
Definition validateImage (img : File → ImageEvent)
    (file : File) (type : ImageKind) : ImageValidationResult :=
  let errors : list ErrorMessage := [] in
  let warnings : list WarningMessage := [] in
  let constraints := constraints_of type in
  (* Check file type *)
  let errors :=
    if negb (existsb (String.eqb (file_type file)) (acceptedTypes constraints))
    then errors ++ [InvalidFileType (type_or_unknown (file_type file))]
    else errors in
  (* Check file size *)
  let errors :=
    if (file_size file >? maxSizeBytes constraints)%Z
    then errors ++ [FileSizeExceeds (file_size file) (maxSizeMB constraints)]
    else errors in
  (* Check dimensions *)
  match img file with
  | onload width height =>
      let errors :=
        if (width <? minWidth constraints)%Z || (height <? minHeight constraints)%Z
        then errors ++ [ImageTooSmall width height
                          (minWidth constraints) (minHeight constraints)]
        else errors in
      let warnings :=
        if (width >? maxWidth constraints)%Z || (height >? maxHeight constraints)%Z
        then warnings ++ [ImageVeryLarge width height
                            (recommendedWidth constraints)
                            (recommendedHeight constraints)]
        else warnings in
      let aspectRatio := (number_of_Z width / number_of_Z height)%float in
      let warnings :=
        if PrimFloat.ltb aspectRatio (aspectRatioMin constraints)
           || PrimFloat.ltb (aspectRatioMax constraints) aspectRatio
        then match type with
             | Photo => warnings ++ [UnusualAspectPortrait aspectRatio type]
             | Signature => warnings ++ [UnusualAspectLandscape aspectRatio type]
             end
        else warnings in
      {| valid := (length errors =? 0)%nat;
         errors := errors;
         warnings := warnings;
         dimensions := Some (width, height) |}
  | onerror =>
      let errors := errors ++ [CouldNotRead] in
      {| valid := false;
         errors := errors;
         warnings := warnings;
         dimensions := None |}
  end.

(** The three hard checks, named for the statements below. *)
Definition type_accepted (file : File) (type : ImageKind) : bool :=
  existsb (String.eqb (file_type file)) (acceptedTypes (constraints_of type)).

Definition size_within_cap (file : File) (type : ImageKind) : bool :=
  negb (file_size file >? maxSizeBytes (constraints_of type))%Z.

Definition large_enough (type : ImageKind) (width height : Z) : bool :=
  negb ((width <? minWidth (constraints_of type))%Z
        || (height <? minHeight (constraints_of type))%Z).

(** Sample uploads. *)
Definition six_MB_jpeg : File :=
  {| file_type := "image/jpeg"; file_size := 6 * 1024 * 1024 |}.

Definition wide_photo : File :=
  {| file_type := "image/png"; file_size := 200000 |}.

Definition corrupt_upload : File :=
  {| file_type := "image/gif"; file_size := 3 * 1024 * 1024 |}.

End Validation.

(** ** The form tables, the platform and the document *)

(** An entry of [FORM_FIELDS]; only [id] and [pdfFieldId] are read here. *)
Module FormField.
Record t := { id : string; pdfFieldId : string }.
End FormField.

(** An entry of [FIELD_COORDS]. *)
Module FieldRect.
Record t := { x : float; y : float; w : float; h : float }.
End FieldRect.

(** [PHOTO_BOX], [SIGNATURE_POSITIONS.student] and the options object of
    [page.drawImage]. *)
Module Box.
Record t := { x : float; y : float; width : float; height : float }.
End Box.

(** What [./form-fields] exports: the tables are parameters of the model. *)
Record FormTables := {
  FORM_FIELDS : list FormField.t;
  FIELD_COORDS : gmap string FieldRect.t;
  PHOTO_BOX : Box.t;
  SIGNATURE_POSITIONS_student : Box.t
}.

Record ImageData := { photo : option string; signature : option string }.

(** Calls made on one canvas element and its 2d context, in order. *)
Inductive CanvasCall :=
| createElement (tag : string)
| set_width (v : float)
| set_height (v : float)
| getContext (contextId : string)
| clearRect (x y w h : float)
| set_fillStyle (style : string)
| set_font (px : float) (families : list string)
| set_textBaseline (baseline : string)
| fillText (text : string) (x y : float)
| toDataURL (mime : string).

(** An image handle returned by [embedPng] or [embedJpg]. *)
Inductive PDFImage :=
| PngImage (bytes : list byte)
| JpgImage (bytes : list byte).

Inductive FormState := Interactive | Flattened | FlattenThrew.

(** The loaded document: the template it came from, the images embedded so
    far, what has been drawn on the first page, and the form's state. *)
Record PDFDocument := {
  template : list byte;
  embedded : list PDFImage;
  firstPage : list (PDFImage * Box.t);
  form : FormState
}.

Inductive ConsoleEntry :=
| console_warn_entry (message : string) (err : Exn)
| console_error_entry (message : string) (err : Exn).

(** Calls into pdf-lib and the DOM, for statements about which were made. *)
Inductive ApiCall :=
| call_fetch (url : string)
| call_load (bytes : list byte)
| call_canvas (calls : list CanvasCall)
| call_embedPng (bytes : list byte)
| call_embedJpg (bytes : list byte)
| call_drawImage (image : PDFImage) (options : Box.t)
| call_flatten
| call_save.

Record World := {
  pdfDoc : PDFDocument;
  console : list ConsoleEntry;
  calls : list ApiCall
}.

(** The browser and pdf-lib, as far as the outcome of their calls goes.
    Each may answer normally or throw, and answers by its arguments alone.
    [pdf_load] stands for everything done to open the template before the
    first [try]: [PDFDocument.load], [registerFontkit], [getForm] and
    [getPages]. *)
Record Platform := {
  NEXT_PUBLIC_BASE_PATH : option string;
  (* [fetch(url)] then [response.arrayBuffer()] *)
  net_fetch : string → Completion (list byte);
  (* [PDFDocument.load(bytes)] *)
  pdf_load : list byte → Completion unit;
  (* does [canvas.getContext("2d")] give a context, after these calls? *)
  canvas_getContext : list CanvasCall → bool;
  (* [canvas.toDataURL("image/png")] after these calls *)
  canvas_toDataURL : list CanvasCall → Completion string;
  pdf_embedPng : list byte → Completion unit;
  pdf_embedJpg : list byte → Completion unit;
  (* [page.drawImage], with [page = pdfDoc.getPages()[0]] *)
  page_drawImage : PDFImage → Box.t → Completion unit;
  form_flatten : Completion unit;
  pdf_save : PDFDocument → Completion (list byte)
}.

(** ** The monad: state and exceptions *)

Definition M (A : Type) : Type := World → Completion A * World.

#[export] Instance M_ret : MRet M := λ A a w, (Normal a, w).
#[export] Instance M_bind : MBind M := λ A B f m w,
  match m w with
  | (Normal a, w') => f a w'
  | (Throw e, w') => (Throw e, w')
  end.

(** [try { body } catch (err) { handler }]: what [body] did before it threw
    stays done. *)
Definition try_catch (body : M unit) (handler : Exn → M unit) : M unit :=
  λ w, match body w with
       | (Normal a, w') => (Normal a, w')
       | (Throw e, w') => handler e w'
       end.

Definition lift {A} (c : Completion A) : M A := λ w, (c, w).

Definition log_call (c : ApiCall) : M unit :=
  λ w, (Normal tt, {| pdfDoc := pdfDoc w; console := console w;
                      calls := calls w ++ [c] |}).

Definition update_doc (f : PDFDocument → PDFDocument) : M unit :=
  λ w, (Normal tt, {| pdfDoc := f (pdfDoc w); console := console w;
                      calls := calls w |}).

Definition get_doc : M PDFDocument := λ w, (Normal (pdfDoc w), w).

Definition console_warn (message : string) (err : Exn) : M unit :=
  λ w, (Normal tt, {| pdfDoc := pdfDoc w;
                      console := console w ++ [console_warn_entry message err];
                      calls := calls w |}).

Definition console_error (message : string) (err : Exn) : M unit :=
  λ w, (Normal tt, {| pdfDoc := pdfDoc w;
                      console := console w ++ [console_error_entry message err];
                      calls := calls w |}).

(** [for (const a of l) { body }] *)
Fixpoint for_of {A} (l : list A) (body : A → M unit) : M unit :=
  match l with
  | [] => mret tt
  | a :: l' => body a ;; for_of l' body
  end.

(** [obj[k] = v] on a plain object whose keys are enumerated later by
    [Object.entries]: an existing key keeps its place, a new one goes last.
    Keys are taken to be ordinary names such as [text_3zwog]: keys that
    look like array indices would be enumerated first, and names found on
    [Object.prototype] are not told apart from own keys. *)
Definition record_set (k v : string) (obj : list (string * string))
  : list (string * string) :=
  if existsb (λ kv, String.eqb kv.1 k) obj
  then map (λ kv, if String.eqb kv.1 k then (k, v) else kv) obj
  else obj ++ [(k, v)].

Section Composer.

Context (P : Platform) (T : FormTables).

(** [process.env.NEXT_PUBLIC_BASE_PATH || ""] *)
Definition BASE_PATH : string :=
  if truthy (NEXT_PUBLIC_BASE_PATH P) then to_string (NEXT_PUBLIC_BASE_PATH P)
  else "".

(** *** [renderTextToImage]

    Returns the data URL (or throws, if the platform does) together with
    the calls made on the canvas. *)
Definition renderTextToImage (text : string) (fieldWidth fieldHeight : float)
  : Completion string * list CanvasCall :=
  let scale := 4%float in
  let fontSize := (fieldHeight * 0x1.b333333333333p-1)%float in (* 0.85 *)
  let canvasWidth := (fieldWidth * scale)%float in
  let canvasHeight := (fieldHeight * scale)%float in
  let canvas := [createElement "canvas";
                 set_width canvasWidth;
                 set_height canvasHeight;
                 getContext "2d"] in
  if negb (canvas_getContext P canvas) then (Normal "", canvas)
  else
    let canvas := canvas ++
      [clearRect 0 0 canvasWidth canvasHeight;
       set_fillStyle "#000000";
       set_font (fontSize * scale)
         ["Noto Sans Bengali"; "Noto Sans"; "Arial"; "sans-serif"];
       set_textBaseline "middle";
       fillText text (1 * scale) (canvasHeight / 2);
       toDataURL "image/png"] in
    (canvas_toDataURL P canvas, canvas).

Definition renderTextToImage_M (text : string) (fieldWidth fieldHeight : float)
  : M string :=
  let r := renderTextToImage text fieldWidth fieldHeight in
  log_call (call_canvas r.2) ;; lift r.1.

(** *** pdf-lib calls *)

Definition embedPng (bytes : list byte) : M PDFImage :=
  log_call (call_embedPng bytes) ;;
  lift (pdf_embedPng P bytes) ;;
  update_doc (λ d, {| template := template d;
                      embedded := embedded d ++ [PngImage bytes];
                      firstPage := firstPage d; form := form d |}) ;;
  mret (PngImage bytes).

Definition embedJpg (bytes : list byte) : M PDFImage :=
  log_call (call_embedJpg bytes) ;;
  lift (pdf_embedJpg P bytes) ;;
  update_doc (λ d, {| template := template d;
                      embedded := embedded d ++ [JpgImage bytes];
                      firstPage := firstPage d; form := form d |}) ;;
  mret (JpgImage bytes).

Definition drawImage (image : PDFImage) (options : Box.t) : M unit :=
  log_call (call_drawImage image options) ;;
  lift (page_drawImage P image options) ;;
  update_doc (λ d, {| template := template d; embedded := embedded d;
                      firstPage := firstPage d ++ [(image, options)];
                      form := form d |}).

(** [form.flatten()]: when it throws, some widgets may already be gone. *)
Definition flatten : M unit :=
  let set s := update_doc (λ d, {| template := template d;
                                   embedded := embedded d;
                                   firstPage := firstPage d; form := s |}) in
  log_call call_flatten ;;
  match form_flatten P with
  | Normal _ => set Flattened
  | Throw e => set FlattenThrew ;; lift (Throw e)
  end.

Definition save : M (list byte) :=
  log_call call_save ;;
  d ← get_doc;
  lift (pdf_save P d).

(** [fetch] and [PDFDocument.load]: the document of this call. *)
Definition load_template : M unit :=
  let url := BASE_PATH +:+ "/blank-form.pdf" in
  log_call (call_fetch url) ;;
  pdfBytes ← lift (net_fetch P url);
  log_call (call_load pdfBytes) ;;
  lift (pdf_load P pdfBytes) ;;
  update_doc (λ _, {| template := pdfBytes; embedded := [];
                      firstPage := []; form := Interactive |}).

(** *** [fillPdfForm], step by step *)

(** Build the PDF field data from form values. *)
Definition build_pdfFieldData (formValues : gmap string string)
  : list (string * string) :=
  foldl (λ pdfFieldData field,
           match formValues !! FormField.id field with
           | Some value =>
               if truthy (Some value)
               then record_set (FormField.pdfFieldId field) value pdfFieldData
               else pdfFieldData
           | None => pdfFieldData
           end)
        [] (FORM_FIELDS T).

Definition rect_options (coords : FieldRect.t) : Box.t :=
  {| Box.x := FieldRect.x coords; Box.y := FieldRect.y coords;
     Box.width := FieldRect.w coords; Box.height := FieldRect.h coords |}.

(** The body of the [try] in the field loop. *)
Definition draw_field_body (fieldValue : string) (coords : FieldRect.t) : M unit :=
  pngDataUrl ← renderTextToImage_M fieldValue
                 (FieldRect.w coords) (FieldRect.h coords);
  if truthy (Some pngDataUrl) then
    pngBytes ← lift (dataUrlToUint8Array pngDataUrl);
    pngImage ← embedPng pngBytes;
    drawImage pngImage (rect_options coords)
  else mret tt.

(** Draw one field's text as a rendered image on the page. *)
Definition draw_field (entry : string * string) : M unit :=
  let '(fieldName, fieldValue) := entry in
  match FIELD_COORDS T !! fieldName with
  | None => mret tt  (* continue *)
  | Some coords =>
      try_catch (draw_field_body fieldValue coords)
        (λ err, console_warn ("Could not render field " +:+ fieldName +:+ ":") err)
  end.

(** The body of the [try] for the photo and for the signature. *)
Definition embed_asset_body (dataUrl : string) (box : Box.t) : M unit :=
  bytes ← lift (dataUrlToUint8Array dataUrl);
  let type := getImageType dataUrl in
  image ← match type with
          | png => embedPng bytes
          | jpg => embedJpg bytes
          end;
  drawImage image box.

Definition add_photo (images : ImageData) : M unit :=
  if truthy (photo images) then
    try_catch (embed_asset_body (to_string (photo images)) (PHOTO_BOX T))
      (λ err, console_error "Error embedding photo:" err)
  else mret tt.

Definition add_signature (images : ImageData) : M unit :=
  if truthy (signature images) then
    try_catch (embed_asset_body (to_string (signature images))
                 (SIGNATURE_POSITIONS_student T))
      (λ err, console_error "Error embedding signature:" err)
  else mret tt.

(** Everything between [PDFDocument.load] and [pdfDoc.save]. *)
Definition fill_loaded (formValues : gmap string string) (images : ImageData)
  : M unit :=
  let pdfFieldData := build_pdfFieldData formValues in
  for_of pdfFieldData draw_field ;;
  try_catch flatten (λ _, mret tt) ;;
  add_photo images ;;
  add_signature images.

Definition fillPdfForm (formValues : gmap string string) (images : ImageData)
  : M (list byte) :=
  load_template ;;
  fill_loaded formValues images ;;
  save.

(** *** What each step leaves on the page

    The same steps read as pure functions of the platform's answers: the
    draw a step makes when every call in it answers normally, or the
    exception that ends it. *)

Definition Draw : Type := PDFImage * Box.t.

Definition overlay_attempt (fieldValue : string) (coords : FieldRect.t)
  : Completion (option Draw) :=
  pngDataUrl ← (renderTextToImage fieldValue
                  (FieldRect.w coords) (FieldRect.h coords)).1;
  if truthy (Some pngDataUrl) then
    pngBytes ← dataUrlToUint8Array pngDataUrl;
    pdf_embedPng P pngBytes ;;
    page_drawImage P (PngImage pngBytes) (rect_options coords) ;;
    mret (Some (PngImage pngBytes, rect_options coords))
  else mret None.

Definition asset_attempt (dataUrl : string) (box : Box.t)
  : Completion (option Draw) :=
  bytes ← dataUrlToUint8Array dataUrl;
  match getImageType dataUrl with
  | png => pdf_embedPng P bytes ;;
           page_drawImage P (PngImage bytes) box ;;
           mret (Some (PngImage bytes, box))
  | jpg => pdf_embedJpg P bytes ;;
           page_drawImage P (JpgImage bytes) box ;;
           mret (Some (JpgImage bytes, box))
  end.

(** A step that threw, or that skipped, draws nothing. *)
Definition drawn (attempt : Completion (option Draw)) : list Draw :=
  match attempt with
  | Normal (Some d) => [d]
  | Normal None => []
  | Throw _ => []
  end.

Definition entry_overlay (entry : string * string) : list Draw :=
  match FIELD_COORDS T !! entry.1 with
  | Some coords => drawn (overlay_attempt entry.2 coords)
  | None => []
  end.


Definition asset_overlay (asset : option string) (box : Box.t) : list Draw :=
  if truthy asset then drawn (asset_attempt (to_string asset) box) else [].

(** The state [form.flatten()] leaves the form in. *)
Definition flatten_result : FormState :=
  match form_flatten P with
  | Normal _ => Flattened
  | Throw _ => FlattenThrew
  end.

(** The four calls that set up the canvas of a [w] by [h] field. *)
Definition surface_calls (fieldWidth fieldHeight : float) : list CanvasCall :=
  [createElement "canvas";
   set_width (fieldWidth * 4);
   set_height (fieldHeight * 4);
   getContext "2d"].

End Composer.

(** ** Sample platforms and inputs *)

Module Samples.

(** A browser where everything works and every canvas renders to the same
    four-byte image. *)
Definition working : Platform :=
  {| NEXT_PUBLIC_BASE_PATH := None;
     net_fetch := λ _, Normal [x25; x50; x44; x46];
     pdf_load := λ _, Normal tt;
     canvas_getContext := λ _, true;
     canvas_toDataURL := λ _, Normal "data:image/png;base64,iVBORw==";
     pdf_embedPng := λ _, Normal tt;
     pdf_embedJpg := λ _, Normal tt;
     page_drawImage := λ _ _, Normal tt;
     form_flatten := Normal tt;
     pdf_save := λ d, Normal (template d) |}.

(** The same browser without a 2d context. *)
Definition no_context : Platform :=
  {| NEXT_PUBLIC_BASE_PATH := None;
     net_fetch := λ _, Normal [x25; x50; x44; x46];
     pdf_load := λ _, Normal tt;
     canvas_getContext := λ _, false;
     canvas_toDataURL := λ _, Normal "data:image/png;base64,iVBORw==";
     pdf_embedPng := λ _, Normal tt;
     pdf_embedJpg := λ _, Normal tt;
     page_drawImage := λ _ _, Normal tt;
     form_flatten := Normal tt;
     pdf_save := λ d, Normal (template d) |}.

Definition embed_error : Exn := mkExn "Error".

(** A browser whose pdf-lib takes JPEG data only. *)
Definition jpeg_only : Platform :=
  {| NEXT_PUBLIC_BASE_PATH := None;
     net_fetch := λ _, Normal [x25; x50; x44; x46];
     pdf_load := λ _, Normal tt;
     canvas_getContext := λ _, true;
     canvas_toDataURL := λ _, Normal "data:image/png;base64,iVBORw==";
     pdf_embedPng := λ _, Throw embed_error;
     pdf_embedJpg := λ _, Normal tt;
     page_drawImage := λ _ _, Normal tt;
     form_flatten := Normal tt;
     pdf_save := λ d, Normal (template d) |}.

Definition name_rect : FieldRect.t :=
  {| FieldRect.x := 193; FieldRect.y := 584;
     FieldRect.w := 364; FieldRect.h := 11 |}.

Definition a_box : Box.t :=
  {| Box.x := 450; Box.y := 650; Box.width := 90; Box.height := 110 |}.

(** Two fields, of which only the first has coordinates. *)
Definition tables : FormTables :=
  {| FORM_FIELDS := [ {| FormField.id := "name_bn"; FormField.pdfFieldId := "text_3zwog" |};
                      {| FormField.id := "phone"; FormField.pdfFieldId := "text_phone" |} ];
     FIELD_COORDS := {[ "text_3zwog" := name_rect ]};
     PHOTO_BOX := a_box;
     SIGNATURE_POSITIONS_student := a_box |}.

Definition sample_values : gmap string string :=
  {[ "name_bn" := "Karate"; "phone" := "017" ]}.

Definition no_images : ImageData := {| photo := None; signature := None |}.

Definition blank_document : PDFDocument :=
  {| template := []; embedded := []; firstPage := []; form := Interactive |}.

Definition new_world : World :=
  {| pdfDoc := blank_document; console := []; calls := [] |}.

(** A JPEG data URL whose base64 text happens to spell [image/png]: the
    stream is start-of-image, a comment segment of nine bytes, end-of-image. *)
Definition jpeg_spelling_png : string :=
  "data:image/jpeg;base64,/9j//gALimage/pngAAA/9k=".

(** What [jpeg_spelling_png] decodes to: [FF D8], then [FF FE 00 0B] and the
    comment, then [FF D9]. *)
Definition jpeg_spelling_png_bytes : list byte :=
  [xff; xd8; xff; xfe; x00; x0b;
   x8a; x66; xa0; x7b; xfa; x67; x80; x00; x00;
   xff; xd9].

Definition jpeg_photo : ImageData :=
  {| photo := Some jpeg_spelling_png; signature := None |}.

End Samples.

(** ** Vocabulary of the proofs *)

(** [w'] is [w] with [l] drawn after what the first page already had, on
    the same template and with the form as it was. *)
Definition page_grows (w w' : World) (l : list (PDFImage * Box.t)) : Prop :=
  firstPage (pdfDoc w') = firstPage (pdfDoc w) ++ l ∧
  template (pdfDoc w') = template (pdfDoc w) ∧
  form (pdfDoc w') = form (pdfDoc w).

(** The entry a field adds to [pdfFieldData] when no other field has its
    pdf field id. *)
Definition selected (formValues : gmap string string) (field : FormField.t)
  : list (string * string) :=
  match formValues !! FormField.id field with
  | Some value =>
      if truthy (Some value) then [(FormField.pdfFieldId field, value)] else []
  | None => []
  end.

(** ** The rest of [pdf-utils.ts]: persistence, downloads, uploads *)

(** State and exceptions over any state, for the functions that do not
    touch the document. *)
Module StateExnMonad.

Definition StateExn (S A : Type) : Type := S → Completion A * S.

#[export] Instance StateExn_ret {S} : MRet (StateExn S) := λ A a s, (Normal a, s).
#[export] Instance StateExn_bind {S} : MBind (StateExn S) := λ A B f m s,
  match m s with
  | (Normal a, s') => f a s'
  | (Throw e, s') => (Throw e, s')
  end.

(** [try { body } catch (e) { handler }], both returning a value. *)
Definition try_catch_in {S A} (body : StateExn S A) (handler : Exn → StateExn S A)
  : StateExn S A :=
  λ s, match body s with
       | (Normal a, s') => (Normal a, s')
       | (Throw e, s') => handler e s'
       end.

Definition lift_in {S A} (c : Completion A) : StateExn S A := λ s, (c, s).

End StateExnMonad.

(** *** [saveFormToLocalStorage], [loadFormFromLocalStorage],
    [clearFormLocalStorage] *)

Module Persistence.
Import StateExnMonad.

(** What [JSON.parse] returns: an object of strings, or any other value,
    kept as the text it was parsed from. *)
Inductive JSONValue :=
| JSONRecord (r : gmap string string)
| JSONOther (text : string).

(** [JSON] and what [localStorage] refuses: [setItem_throws] says what
    [setItem(k, v)] throws on the given contents, if anything (a full
    quota, a storage the browser blocks), and [removeItem_throws] what
    [removeItem(k)] throws. *)
Record StoragePlatform := {
  JSON_stringify : gmap string string → string;
  JSON_parse : string → Completion JSONValue;
  setItem_throws : gmap string string → string → string → option Exn;
  removeItem_throws : gmap string string → string → option Exn
}.

Record Browser := {
  localStorage : gmap string string;
  console_log : list ConsoleEntry
}.

(** What [loadFormFromLocalStorage] returns. *)
Record Loaded := { formData : JSONValue; images : ImageData }.

Definition form_data_key : string := "hstu_karate_form_data".
Definition photo_key : string := "hstu_karate_photo".
Definition signature_key : string := "hstu_karate_signature".

Section Storage.

Context (SP : StoragePlatform).

Definition setItem (k v : string) : StateExn Browser unit :=
  λ b, match setItem_throws SP (localStorage b) k v with
       | Some e => (Throw e, b)
       | None => (Normal tt, {| localStorage := <[k := v]> (localStorage b);
                                console_log := console_log b |})
       end.

Definition getItem (k : string) : StateExn Browser (option string) :=
  λ b, (Normal (localStorage b !! k), b).

Definition removeItem (k : string) : StateExn Browser unit :=
  λ b, match removeItem_throws SP (localStorage b) k with
       | Some e => (Throw e, b)
       | None => (Normal tt, {| localStorage := delete k (localStorage b);
                                console_log := console_log b |})
       end.

Definition warn (message : string) (err : Exn) : StateExn Browser unit :=
  λ b, (Normal tt, {| localStorage := localStorage b;
                      console_log := console_log b ++ [console_warn_entry message err] |}).

Definition saveFormToLocalStorage (formData : gmap string string)
    (images : ImageData) : StateExn Browser unit :=
  try_catch_in
    (setItem form_data_key (JSON_stringify SP formData) ;;
     (* Images stored separately due to size *)
     (if truthy (photo images)
      then setItem photo_key (to_string (photo images))
      else mret tt) ;;
     (if truthy (signature images)
      then setItem signature_key (to_string (signature images))
      else mret tt))
    (λ e, warn "Could not save to localStorage:" e).

(** [v || undefined] *)
Definition or_undefined (v : option string) : option string :=
  if truthy v then v else None.

Definition loadFormFromLocalStorage : StateExn Browser Loaded :=
  try_catch_in
    (formDataStr ← getItem form_data_key;
     photo ← getItem photo_key;
     signature ← getItem signature_key;
     formData ← (if truthy formDataStr
                 then lift_in (JSON_parse SP (to_string formDataStr))
                 else mret (JSONRecord ∅));
     mret {| formData := formData;
             images := {| photo := or_undefined photo;
                          signature := or_undefined signature |} |})
    (λ _, mret {| formData := JSONRecord ∅;
                  images := {| photo := None; signature := None |} |}).

Definition clearFormLocalStorage : StateExn Browser unit :=
  removeItem form_data_key ;;
  removeItem photo_key ;;
  removeItem signature_key.

End Storage.

(** [localStorage] after [setItem(k, v)] guarded by [if (v)]. *)
Definition store_if (k : string) (v : option string) (items : gmap string string)
  : gmap string string :=
  if truthy v then <[k := to_string v]> items else items.

(** The three keys the form is kept under. *)
Definition own_key (k : string) : Prop :=
  k = form_data_key ∨ k = photo_key ∨ k = signature_key.

(** [removeItem] goes through at each of the three calls of
    [clearFormLocalStorage] on [items]. *)
Definition removal_allowed (SP : StoragePlatform) (items : gmap string string)
  : Prop :=
  removeItem_throws SP items form_data_key = None
  ∧ removeItem_throws SP (delete form_data_key items) photo_key = None
  ∧ removeItem_throws SP (delete photo_key (delete form_data_key items))
      signature_key = None.

(** A [localStorage] with room for everything. *)
Definition has_room (SP : StoragePlatform) : Prop :=
  ∀ items k v, setItem_throws SP items k v = None.

Definition nothing_loaded : Loaded :=
  {| formData := JSONRecord ∅; images := {| photo := None; signature := None |} |}.

(** A stand-in for [JSON] that knows one record and its text, and a
    [localStorage] that takes values of at most [quota] characters, or of
    any length without a quota. *)
Definition sample_storage (known : gmap string string) (text : string)
    (quota : option nat) : StoragePlatform :=
  {| JSON_stringify := λ r, if decide (r = known) then text else "{}";
     JSON_parse := λ s, if String.eqb s text then Normal (JSONRecord known)
                        else if String.eqb s "{}" then Normal (JSONRecord ∅)
                        else Throw (mkExn "SyntaxError");
     setItem_throws := λ _ _ v,
       match quota with
       | Some n => if (String.length v <=? n)%nat then None
                   else Some (mkExn "QuotaExceededError")
       | None => None
       end;
     removeItem_throws := λ _ _, None |}.

(** A browser that blocks the storage of the page: every write to it
    throws. *)
Definition blocked : StoragePlatform :=
  {| JSON_stringify := λ _, "{}";
     JSON_parse := λ _, Normal (JSONRecord ∅);
     setItem_throws := λ _ _ _, Some (mkExn "SecurityError");
     removeItem_throws := λ _ _, Some (mkExn "SecurityError") |}.

(** A browser that lets the form data go and then refuses. *)
Definition blocked_after_first : StoragePlatform :=
  {| JSON_stringify := λ _, "{}";
     JSON_parse := λ _, Normal (JSONRecord ∅);
     setItem_throws := λ _ _ _, None;
     removeItem_throws := λ _ k,
       if String.eqb k form_data_key then None
       else Some (mkExn "SecurityError") |}.

(** A string in double quotes. *)
Definition quoted (s : string) : string :=
  String (ascii_of_nat 34) (s +:+ String (ascii_of_nat 34) "").

Definition sample_form : gmap string string := {[ "name_en" := "Rahim" ]}.

Definition sample_text : string :=
  "{" +:+ quoted "name_en" +:+ ":" +:+ quoted "Rahim" +:+ "}".

Definition roomy : StoragePlatform := sample_storage sample_form sample_text None.

Definition cramped : StoragePlatform :=
  sample_storage sample_form sample_text (Some 30%nat).

(** A browser that holds a photo from an earlier session. *)
Definition with_old_photo : Browser :=
  {| localStorage := {[ photo_key := "data:image/png;base64,iVBORw==" ]};
     console_log := [] |}.

(** A browser whose stored form data is cut short, and that holds a photo. *)
Definition with_broken_form : Browser :=
  {| localStorage := {[ form_data_key := "{";
                        photo_key := "data:image/png;base64,iVBORw==" ]};
     console_log := [] |}.

Definition signature_only : ImageData :=
  {| photo := None; signature := Some "data:image/png;base64,iVBORw==" |}.

Definition long_photo : ImageData :=
  {| photo := Some "data:image/png;base64,iVBORw0KGgoAAAANSUhEUgAAAAEAAAABCAYAAAAfFcSJ";
     signature := None |}.

Definition empty_browser : Browser := {| localStorage := ∅; console_log := [] |}.

End Persistence.

(** *** [downloadPdf] and [downloadBlankForm] *)

Module Download.
Import StateExnMonad.

Record Blob := { blob_bytes : list byte; blob_type : string }.

(** The attributes of an anchor element that the code sets. *)
Record Anchor := { href : string; download : string }.

(** A download the browser started on a click: where from, under which
    name, and the blob behind the address at that moment, if it is an
    object URL. *)
Record Started := {
  started_from : string;
  saved_as : string;
  content : option Blob
}.

(** The page: element nodes are numbered as they are created; [body] lists
    the children of [document.body]. *)
Record Page := {
  next_node : nat;
  anchors : gmap nat Anchor;
  body : list nat;
  objectURLs : gmap string Blob;
  started : list Started
}.

Definition NotFoundError : Exn := mkExn "NotFoundError".

Section Dom.

(** The address [URL.createObjectURL] mints for a blob, given the ones in
    use. *)
Context (mint_url : gmap string Blob → Blob → string).

Definition createObjectURL (blob : Blob) : StateExn Page string :=
  λ p, let url := mint_url (objectURLs p) blob in
       (Normal url, {| next_node := next_node p; anchors := anchors p;
                       body := body p;
                       objectURLs := <[url := blob]> (objectURLs p);
                       started := started p |}).

Definition revokeObjectURL (url : string) : StateExn Page unit :=
  λ p, (Normal tt, {| next_node := next_node p; anchors := anchors p;
                      body := body p;
                      objectURLs := delete url (objectURLs p);
                      started := started p |}).

(** [document.createElement("a")] *)
Definition createElement_a : StateExn Page nat :=
  λ p, (Normal (next_node p),
        {| next_node := S (next_node p);
           anchors := <[next_node p := {| href := ""; download := "" |}]> (anchors p);
           body := body p; objectURLs := objectURLs p; started := started p |}).

Definition update_anchor (a : nat) (f : Anchor → Anchor) : StateExn Page unit :=
  λ p, (Normal tt, {| next_node := next_node p; anchors := alter f a (anchors p);
                      body := body p; objectURLs := objectURLs p;
                      started := started p |}).

Definition set_href (a : nat) (v : string) : StateExn Page unit :=
  update_anchor a (λ el, {| href := v; download := download el |}).

Definition set_download (a : nat) (v : string) : StateExn Page unit :=
  update_anchor a (λ el, {| href := href el; download := v |}).

(** [document.body.appendChild(a)]: a child already there moves to the end. *)
Definition appendChild (a : nat) : StateExn Page unit :=
  λ p, (Normal tt, {| next_node := next_node p; anchors := anchors p;
                      body := List.filter (λ n, negb (Nat.eqb n a)) (body p) ++ [a];
                      objectURLs := objectURLs p; started := started p |}).

(** [document.body.removeChild(a)] throws when [a] is not a child. *)
Definition removeChild (a : nat) : StateExn Page unit :=
  λ p, if existsb (Nat.eqb a) (body p)
       then (Normal tt, {| next_node := next_node p; anchors := anchors p;
                           body := List.filter (λ n, negb (Nat.eqb n a)) (body p);
                           objectURLs := objectURLs p; started := started p |})
       else (Throw NotFoundError, p).

(** [a.click()] on an anchor with a [download] attribute. *)
Definition click (a : nat) : StateExn Page unit :=
  λ p, match anchors p !! a with
       | Some el =>
           (Normal tt, {| next_node := next_node p; anchors := anchors p;
                          body := body p; objectURLs := objectURLs p;
                          started := started p ++
                            [{| started_from := href el; saved_as := download el;
                                content := objectURLs p !! href el |}] |})
       | None => (Normal tt, p)
       end.

Definition downloadPdf (pdfBytes : list byte) (filename : string)
  : StateExn Page unit :=
  let blob := {| blob_bytes := pdfBytes; blob_type := "application/pdf" |} in
  url ← createObjectURL blob;
  a ← createElement_a;
  set_href a url ;;
  set_download a filename ;;
  appendChild a ;;
  click a ;;
  removeChild a ;;
  revokeObjectURL url.

Definition downloadBlankForm (P : Platform) : StateExn Page unit :=
  a ← createElement_a;
  set_href a (BASE_PATH P +:+ "/blank-form.pdf") ;;
  set_download a "HSTU_Karate_Dojo_Form_Blank.pdf" ;;
  appendChild a ;;
  click a ;;
  removeChild a.

End Dom.

(** A page whose body holds only nodes that were created on it. *)
Definition well_formed (p : Page) : Prop :=
  ∀ n, n ∈ body p → n < next_node p.

(** An address per blob in use, and a page with one element in its body. *)
Fixpoint tally (n : nat) : string :=
  match n with
  | 0 => ""
  | S n => String "i" (tally n)
  end.

Definition sample_mint (urls : gmap string Blob) (blob : Blob) : string :=
  "blob:https://hstu-dojo.github.io/" +:+ tally (S (size urls)).

Definition sample_page : Page :=
  {| next_node := 1; anchors := ∅; body := [0]; objectURLs := ∅; started := [] |}.

Definition pdf_header : list byte := [x25; x50; x44; x46].

End Download.

(** *** [readFileAsDataUrl] *)

Module Upload.

(** A file picked by the user: its MIME type and its bytes. *)
Record UploadedFile := { upload_type : string; upload_bytes : list byte }.

(** What [validateImage] reads of it. *)
Definition as_File (u : UploadedFile) : Validation.File :=
  {| Validation.file_type := upload_type u;
     Validation.file_size := Z.of_nat (length (upload_bytes u)) |}.

(** [FileReader]: whether reading fails, and the media type written for a
    file that has none. *)
Record FileReader := {
  reader_error : UploadedFile → option Exn;
  untyped_as : string
}.

(** [reader.result] after [readAsDataURL]: [data:], the type, [;base64,]
    and the base64 text of the bytes. *)
Definition readAsDataURL (R : FileReader) (u : UploadedFile) : string :=
  "data:" +:+ (if truthy (Some (upload_type u)) then upload_type u else untyped_as R)
  +:+ ";base64," +:+ Base64.btoa (upload_bytes u).

(** The promise resolves with [reader.result] on [onload] and rejects on
    [onerror]. *)
Definition readFileAsDataUrl (R : FileReader) (file : UploadedFile)
  : Completion string :=
  match reader_error R file with
  | Some e => Throw e
  | None => Normal (readAsDataURL R file)
  end.

(** A reader that never fails and writes [application/octet-stream] for a
    file without a type. *)
Definition sample_reader : FileReader :=
  {| reader_error := λ _, None; untyped_as := "application/octet-stream" |}.

(** A reader that fails on every file. *)
Definition failing_reader : FileReader :=
  {| reader_error := λ _, Some (mkExn "NotReadableError");
     untyped_as := "application/octet-stream" |}.

Definition png_upload : UploadedFile :=
  {| upload_type := "image/png"; upload_bytes := [x89; x50; x4e; x47; x0d] |}.

Definition jpeg_upload : UploadedFile :=
  {| upload_type := "image/jpeg"; upload_bytes := [xff; xd8; xff; xe0] |}.

End Upload.


(** ** [fillPdfForm]: everything a step does

    Each guarded step read as a pure function of the platform's answers:
    the calls it makes, the images it embeds, what it draws and what it
    logs. *)

Record Effect := {
  eff_calls : list ApiCall;
  eff_embedded : list PDFImage;
  eff_drawn : list (PDFImage * Box.t);
  eff_log : list ConsoleEntry
}.

Definition no_effect : Effect :=
  {| eff_calls := []; eff_embedded := []; eff_drawn := []; eff_log := [] |}.

Definition then_effect (e1 e2 : Effect) : Effect :=
  {| eff_calls := eff_calls e1 ++ eff_calls e2;
     eff_embedded := eff_embedded e1 ++ eff_embedded e2;
     eff_drawn := eff_drawn e1 ++ eff_drawn e2;
     eff_log := eff_log e1 ++ eff_log e2 |}.

Definition all_effects (l : list Effect) : Effect :=
  foldr then_effect no_effect l.

(** The world after a step with the given effect. *)
Definition apply_effect (eff : Effect) (w : World) : World :=
  {| pdfDoc := {| template := template (pdfDoc w);
                  embedded := embedded (pdfDoc w) ++ eff_embedded eff;
                  firstPage := firstPage (pdfDoc w) ++ eff_drawn eff;
                  form := form (pdfDoc w) |};
     console := console w ++ eff_log eff;
     calls := calls w ++ eff_calls eff |}.

Section Effects.

Context (P : Platform) (T : FormTables).

(** Embedding [bytes] with the given pdf-lib call and drawing the image at
    [box]; [logged] makes the console entry of the enclosing [catch]. *)
Definition embed_and_draw (called : ApiCall) (answer : Completion unit)
    (image : PDFImage) (box : Box.t) (logged : Exn → list ConsoleEntry) : Effect :=
  match answer with
  | Throw e =>
      {| eff_calls := [called]; eff_embedded := []; eff_drawn := [];
         eff_log := logged e |}
  | Normal _ =>
      match page_drawImage P image box with
      | Throw e =>
          {| eff_calls := [called; call_drawImage image box];
             eff_embedded := [image]; eff_drawn := []; eff_log := logged e |}
      | Normal _ =>
          {| eff_calls := [called; call_drawImage image box];
             eff_embedded := [image]; eff_drawn := [(image, box)]; eff_log := [] |}
      end
  end.

Definition failed (cs : list ApiCall) (log : list ConsoleEntry) : Effect :=
  {| eff_calls := cs; eff_embedded := []; eff_drawn := []; eff_log := log |}.

Definition field_warning (fieldName : string) (e : Exn) : list ConsoleEntry :=
  [console_warn_entry ("Could not render field " +:+ fieldName +:+ ":") e].

Definition entry_effect (entry : string * string) : Effect :=
  match FIELD_COORDS T !! entry.1 with
  | None => no_effect
  | Some coords =>
      let r := renderTextToImage P entry.2 (FieldRect.w coords) (FieldRect.h coords) in
      let canvas := failed [call_canvas r.2] in
      match r.1 with
      | Throw e => canvas (field_warning entry.1 e)
      | Normal pngDataUrl =>
          if truthy (Some pngDataUrl) then
            match dataUrlToUint8Array pngDataUrl with
            | Throw e => canvas (field_warning entry.1 e)
            | Normal pngBytes =>
                then_effect (canvas [])
                  (embed_and_draw (call_embedPng pngBytes) (pdf_embedPng P pngBytes)
                     (PngImage pngBytes) (rect_options coords)
                     (field_warning entry.1))
            end
          else canvas []
      end
  end.

Definition asset_effect (asset : option string) (box : Box.t) (message : string)
  : Effect :=
  let logged e := [console_error_entry message e] in
  if truthy asset then
    match dataUrlToUint8Array (to_string asset) with
    | Throw e => failed [] (logged e)
    | Normal bytes =>
        match getImageType (to_string asset) with
        | png => embed_and_draw (call_embedPng bytes) (pdf_embedPng P bytes)
                   (PngImage bytes) box logged
        | jpg => embed_and_draw (call_embedJpg bytes) (pdf_embedJpg P bytes)
                   (JpgImage bytes) box logged
        end
    end
  else no_effect.

(** Everything between load and save, but for the form's state. *)
Definition fill_effect (formValues : gmap string string) (images : ImageData)
  : Effect :=
  all_effects
    [all_effects (map entry_effect (build_pdfFieldData T formValues));
     failed [call_flatten] [];
     asset_effect (photo images) (PHOTO_BOX T) "Error embedding photo:";
     asset_effect (signature images) (SIGNATURE_POSITIONS_student T)
       "Error embedding signature:"].

(** The document [save] is called on, when the template loaded. *)
Definition filled_document (pdfBytes : list byte) (formValues : gmap string string)
    (images : ImageData) : PDFDocument :=
  let eff := fill_effect formValues images in
  {| template := pdfBytes;
     embedded := eff_embedded eff;
     firstPage := eff_drawn eff;
     form := flatten_result P |}.

(** [flatten] inside its [try]: one call, the form's state, nothing else. *)
Definition after_flatten (w : World) : World :=
  {| pdfDoc := {| template := template (pdfDoc w); embedded := embedded (pdfDoc w);
                  firstPage := firstPage (pdfDoc w); form := flatten_result P |};
     console := console w;
     calls := calls w ++ [call_flatten] |}.

Definition with_calls (w : World) (cs : list ApiCall) : World :=
  {| pdfDoc := pdfDoc w; console := console w; calls := calls w ++ cs |}.

(** How [fillPdfForm] ends and the world it leaves, by the answers of
    fetch and load. *)
Definition fillPdfForm_outcome (formValues : gmap string string)
    (images : ImageData) (w : World) : Completion (list byte) * World :=
  let url := BASE_PATH P +:+ "/blank-form.pdf" in
  match net_fetch P url with
  | Throw e => (Throw e, with_calls w [call_fetch url])
  | Normal pdfBytes =>
      match pdf_load P pdfBytes with
      | Throw e => (Throw e, with_calls w [call_fetch url; call_load pdfBytes])
      | Normal _ =>
          let eff := fill_effect formValues images in
          let d := filled_document pdfBytes formValues images in
          (pdf_save P d,
           {| pdfDoc := d;
              console := console w ++ eff_log eff;
              calls := calls w ++ [call_fetch url; call_load pdfBytes]
                       ++ eff_calls eff ++ [call_save] |})
      end
  end.

(** The console entry of a field, from its attempt. *)
Definition entry_log (entry : string * string) : list ConsoleEntry :=
  match FIELD_COORDS T !! entry.1 with
  | Some coords =>
      match overlay_attempt P entry.2 coords with
      | Throw e => field_warning entry.1 e
      | Normal _ => []
      end
  | None => []
  end.

Definition asset_log (asset : option string) (box : Box.t) (message : string)
  : list ConsoleEntry :=
  if truthy asset then
    match asset_attempt P (to_string asset) box with
    | Throw e => [console_error_entry message e]
    | Normal _ => []
    end
  else [].

(** One turn of the loop that builds [pdfFieldData]. *)
Definition pdfFieldData_step (formValues : gmap string string)
    (pdfFieldData : list (string * string)) (field : FormField.t)
  : list (string * string) :=
  match formValues !! FormField.id field with
  | Some value =>
      if truthy (Some value)
      then record_set (FormField.pdfFieldId field) value pdfFieldData
      else pdfFieldData
  | None => pdfFieldData
  end.

(** The values [formValues] gives for the pdf field [k], in table order. *)
Definition values_for (formValues : gmap string string) (k : string)
    (fields : list FormField.t) : list string :=
  flat_map (λ field,
              if String.eqb (FormField.pdfFieldId field) k
              then match formValues !! FormField.id field with
                   | Some value => if truthy (Some value) then [value] else []
                   | None => []
                   end
              else [])
           fields.

End Effects.

(** A step that draws only images it embedded. *)
Definition eff_ok (eff : Effect) : Prop :=
  ∀ image box, (image, box) ∈ eff_drawn eff → image ∈ eff_embedded eff.

(** Every image drawn on the first page is among the embedded ones. *)
Definition drawn_are_embedded (d : PDFDocument) : Prop :=
  ∀ image box, (image, box) ∈ firstPage d → image ∈ embedded d.

(** No field has a non-empty value. *)
Definition nothing_filled (T : FormTables) (formValues : gmap string string) : Prop :=
  ∀ field, field ∈ FORM_FIELDS T →
    truthy (formValues !! FormField.id field) = false.

(** ** Keys of the tables

    The model keeps [pdfFieldData] in insertion order and looks a key up
    among the own properties.  A JavaScript object does the same for
    ordinary names; it enumerates the keys that are array indices first,
    and it finds the members of [Object.prototype] under their names. *)

Definition is_digit (c : ascii) : bool :=
  (48 <=? N_of_ascii c)%N && (N_of_ascii c <=? 57)%N.

(** The number a string of digits writes. *)
Definition digits_value (s : string) : N :=
  foldl (λ n c, (10 * n + (N_of_ascii c - 48))%N) 0%N (list_ascii_of_string s).

(** An array index: the canonical decimal text of an integer below
    [2^32 - 1]. *)
Definition is_array_index (k : string) : bool :=
  match k with
  | EmptyString => false
  | String c rest =>
      forallb is_digit (list_ascii_of_string k)
      && (negb (Ascii.eqb c "0"%char) || String.eqb rest "")
      && (digits_value k <? 2 ^ 32 - 1)%N
  end.

Definition Object_prototype_names : list string :=
  ["constructor"; "hasOwnProperty"; "isPrototypeOf"; "propertyIsEnumerable";
   "toLocaleString"; "toString"; "valueOf"; "__proto__";
   "__defineGetter__"; "__defineSetter__"; "__lookupGetter__"; "__lookupSetter__"].

Definition inherited_name (k : string) : bool :=
  existsb (String.eqb k) Object_prototype_names.

(** Every [id] and [pdfFieldId] of [FORM_FIELDS] is an ordinary name: none
    names a member of [Object.prototype], and no [pdfFieldId] is an array
    index. *)
Definition ordinary_keys (T : FormTables) : bool :=
  forallb (λ field,
             negb (inherited_name (FormField.id field))
             && negb (inherited_name (FormField.pdfFieldId field))
             && negb (is_array_index (FormField.pdfFieldId field)))
          (FORM_FIELDS T).

(** A list of keys without its repetitions, each key where it first is. *)
Fixpoint first_occurrences (keys : list string) : list string :=
  match keys with
  | [] => []
  | k :: keys => k :: List.filter (λ k', negb (String.eqb k' k)) (first_occurrences keys)
  end.

(** The pdf field ids of the fields with a non-empty value, in table
    order. *)
Definition filled_ids (formValues : gmap string string) (fields : list FormField.t)
  : list string :=
  map fst (flat_map (selected formValues) fields).


(** ** More sample platforms *)

Module MoreSamples.




(** Three fields, the first and the last for the same pdf field. *)
Definition shared_tables : FormTables :=
  {| FORM_FIELDS := [ {| FormField.id := "name_bn"; FormField.pdfFieldId := "text_name" |};
                      {| FormField.id := "phone"; FormField.pdfFieldId := "text_phone" |};
                      {| FormField.id := "name_en"; FormField.pdfFieldId := "text_name" |} ];
     FIELD_COORDS := {[ "text_name" := Samples.name_rect ]};
     PHOTO_BOX := Samples.a_box;
     SIGNATURE_POSITIONS_student := Samples.a_box |}.

Definition shared_values : gmap string string :=
  {[ "name_bn" := "Rahim"; "phone" := "017"; "name_en" := "Karim" ]}.

(** A server that answers with an HTML page, which pdf-lib refuses. *)
Definition not_a_pdf : Platform :=
  {| NEXT_PUBLIC_BASE_PATH := None;
     net_fetch := λ _, Normal [x3c; x68; x74; x6d; x6c; x3e];
     pdf_load := λ _, Throw Samples.embed_error;
     canvas_getContext := λ _, true;
     canvas_toDataURL := λ _, Normal "data:image/png;base64,iVBORw==";
     pdf_embedPng := λ _, Normal tt;
     pdf_embedJpg := λ _, Normal tt;
     page_drawImage := λ _ _, Normal tt;
     form_flatten := Normal tt;
     pdf_save := λ d, Normal (template d) |}.

End MoreSamples.

(** * Proofs *)

(** ** Base64 and data URLs *)

(** The test vectors of RFC 4648, section 10. *)
Example btoa_foobar :
  Base64.btoa [x66; x6f; x6f; x62; x61; x72] = "Zm9vYmFy"
  ∧ Base64.btoa [x66; x6f; x6f; x62; x61] = "Zm9vYmE="
  ∧ Base64.btoa [x66; x6f; x6f; x62] = "Zm9vYg=="
  ∧ Base64.btoa [] = "".
Proof. repeat split; reflexivity. Qed.

Example atob_foobar :
  Base64.atob "Zm9vYmFy" = Normal "foobar"
  ∧ Base64.atob "Zm9vYmE=" = Normal "fooba"
  ∧ Base64.atob "Zm9vYg==" = Normal "foob".
Proof. repeat split; reflexivity. Qed.

(** [atob] is forgiving about white space and missing padding, and rejects
    a stray [=], a length of 1 modulo 4 and characters outside the
    alphabet. *)
Example atob_forgiving :
  Base64.atob " Zm9v Yg " = Normal "foob"
  ∧ Base64.atob "Zm9vYg=" = Throw Base64.InvalidCharacterError
  ∧ Base64.atob "Zm9vY" = Throw Base64.InvalidCharacterError
  ∧ Base64.atob "Zm9v-g==" = Throw Base64.InvalidCharacterError
  ∧ Base64.atob "undefined" = Throw Base64.InvalidCharacterError.
Proof. repeat split; reflexivity. Qed.

Example split_comma :
  split "," "data:image/png;base64,iVBORw==" = ["data:image/png;base64"; "iVBORw=="]
  ∧ split "," "a,,b" = ["a"; ""; "b"]
  ∧ split "," "" = [""].
Proof. repeat split; reflexivity. Qed.

Example dataUrlToUint8Array_png_magic :
  dataUrlToUint8Array "data:image/png;base64,iVBORw==" = Normal [x89; x50; x4e; x47].
Proof. reflexivity. Qed.

(** Without a comma [split(",")[1]] is [undefined] and [atob] throws; with a
    comma inside the header the wrong piece is decoded. *)
Example dataUrlToUint8Array_malformed :
  dataUrlToUint8Array "iVBORw==" = Throw Base64.InvalidCharacterError
  ∧ dataUrlToUint8Array "data:image/png;name=a,b;base64,iVBORw=="
    = Throw Base64.InvalidCharacterError.
Proof. repeat split; reflexivity. Qed.

Module Base64Facts.
Import Base64.
Local Open Scope N_scope.

Lemma list_ind3 {A} (Q : list A → Prop) :
  Q [] → (∀ a, Q [a]) → (∀ a b, Q [a; b]) →
  (∀ a b c l, Q l → Q (a :: b :: c :: l)) → ∀ l, Q l.
Proof.
  intros H0 H1 H2 H3.
  fix IH 1. intros [|a [|b [|c l]]]; [exact H0|exact (H1 a)|exact (H2 a b)|].
  exact (H3 a b c l (IH l)).
Qed.

Lemma below_64 (f : N → bool) :
  forallb f (map N.of_nat (seq 0 64)) = true → ∀ n, n < 64 → f n = true.
Proof.
  intros Hall n Hn. rewrite forallb_forall in Hall. apply Hall.
  apply in_map_iff. exists (N.to_nat n). split; [lia|].
  apply in_seq. lia.
Qed.

Lemma char_sextet_char n : n < 64 → char_sextet (sextet_char n) = Some n.
Proof.
  intros Hn.
  apply (below_64 (λ n, bool_decide (char_sextet (sextet_char n) = Some n))) in Hn.
  - by apply bool_decide_eq_true in Hn.
  - vm_compute. reflexivity.
Qed.

Lemma sextet_char_plain n :
  n < 64 →
  is_ascii_whitespace (sextet_char n) = false ∧
  Ascii.eqb (sextet_char n) "=" = false ∧
  Ascii.eqb (sextet_char n) "," = false.
Proof.
  intros Hn.
  apply (below_64 (λ n, negb (is_ascii_whitespace (sextet_char n))
                        && negb (Ascii.eqb (sextet_char n) "=")
                        && negb (Ascii.eqb (sextet_char n) ","))) in Hn.
  - apply andb_true_iff in Hn as [Hn H3]. apply andb_true_iff in Hn as [H1 H2].
    rewrite !negb_true_iff in *. auto.
  - vm_compute. reflexivity.
Qed.

Lemma to_sextets_bound bs :
  Forall (λ b, b < 256) bs → Forall (λ s, s < 64) (to_sextets bs).
Proof.
  induction bs as [|a|a b|a b c l IH] using list_ind3; intros Hbs; simpl.
  - constructor.
  - inversion_clear Hbs. repeat constructor; nlia.
  - inversion_clear Hbs as [|? ? ? Hb]. inversion_clear Hb.
    repeat constructor; nlia.
  - inversion_clear Hbs as [|? ? ? Hb]. inversion_clear Hb as [|? ? ? Hc].
    inversion_clear Hc.
    repeat (constructor; [nlia|]). auto.
Qed.

Lemma decode_to_sextets bs :
  Forall (λ b, b < 256) bs → decode_sextets (to_sextets bs) = bs.
Proof.
  induction bs as [|a|a b|a b c l IH] using list_ind3; intros Hbs.
  - reflexivity.
  - inversion_clear Hbs. cbn [to_sextets decode_sextets]. f_equal. nlia.
  - inversion_clear Hbs as [|? ? ? Hb]. inversion_clear Hb.
    cbn [to_sextets decode_sextets]. f_equal; [nlia|]. f_equal. nlia.
  - inversion_clear Hbs as [|? ? ? Hb]. inversion_clear Hb as [|? ? ? Hc].
    inversion_clear Hc.
    cbn [to_sextets decode_sextets]. rewrite IH by assumption.
    f_equal; [nlia|]. f_equal; [nlia|]. f_equal. nlia.
Qed.

Lemma padding_cases bs :
  padding bs = [] ∨ padding bs = ["="%char] ∨ padding bs = ["="%char; "="%char].
Proof. induction bs using list_ind3; simpl; auto. Qed.

Lemma encoded_length bs :
  ((length (to_sextets bs) + length (padding bs)) mod 4 = 0
   ∧ length (to_sextets bs) mod 4 ≠ 1)%nat.
Proof.
  induction bs as [|a|a b|a b c l IH] using list_ind3;
    cbn [to_sextets padding length]; [split; nlia .. |].
  destruct IH. split; nlia.
Qed.

Lemma drop_trailing_eq_snoc l : drop_trailing_eq (l ++ ["="%char]) = l.
Proof. unfold drop_trailing_eq. rewrite rev_unit. cbn. apply rev_involutive. Qed.

Lemma drop_trailing_eq_plain l :
  Forall (λ c, Ascii.eqb c "=" = false) l → drop_trailing_eq l = l.
Proof.
  intros Hl. unfold drop_trailing_eq.
  destruct (rev l) as [|c r] eqn:Hrev; [done|].
  assert (Hc : In c l) by (apply in_rev; rewrite Hrev; left; done).
  rewrite List.Forall_forall in Hl. by rewrite (Hl c Hc).
Qed.

Lemma remove_padding_encoded l pad :
  Forall (λ c, Ascii.eqb c "=" = false) l →
  pad = [] ∨ pad = ["="%char] ∨ pad = ["="%char; "="%char] →
  (length (l ++ pad) mod 4 = 0)%nat →
  remove_padding (l ++ pad) = l.
Proof.
  intros Hl Hpad Hlen. unfold remove_padding.
  rewrite Hlen. cbn [Nat.eqb].
  destruct Hpad as [-> | [-> | ->]].
  - rewrite app_nil_r, !(drop_trailing_eq_plain l Hl). reflexivity.
  - rewrite drop_trailing_eq_snoc. by apply drop_trailing_eq_plain.
  - change (l ++ ["="%char; "="%char]) with (l ++ ["="%char] ++ ["="%char]).
    rewrite app_assoc. by rewrite !drop_trailing_eq_snoc.
Qed.

Lemma strip_whitespace_plain l :
  Forall (λ c, is_ascii_whitespace c = false) l → strip_whitespace l = l.
Proof.
  unfold strip_whitespace.
  induction 1 as [|c l Hc _ IH]; simpl; [done|]. by rewrite Hc, IH.
Qed.

Lemma mapM_char_sextet sx :
  Forall (λ s, s < 64) sx → mapM char_sextet (map sextet_char sx) = Some sx.
Proof.
  induction 1 as [|s sx Hs _ IH]; [done|].
  cbn. rewrite (char_sextet_char s Hs). cbn. rewrite IH. done.
Qed.

Lemma btoa_chars_plain (p : ascii → bool) bs :
  (∀ n, n < 64 → p (sextet_char n) = false) → p "="%char = false →
  Forall (λ b, b < 256) bs →
  Forall (λ c, p c = false) (btoa_chars bs).
Proof.
  intros Hsx Heq Hbs. unfold btoa_chars. apply Forall_app. split.
  - apply to_sextets_bound in Hbs. rewrite Forall_map.
    eapply Forall_impl; [exact Hbs|]. intros n Hn. by apply Hsx.
  - destruct (padding_cases bs) as [-> | [-> | ->]]; repeat constructor; done.
Qed.

Lemma bytes_bounded (bs : list byte) : Forall (λ b, b < 256) (map Byte.to_N bs).
Proof.
  rewrite Forall_map. apply Forall_true. intros b.
  pose proof (Byte.to_N_bounded b). lia.
Qed.

(** [atob] undoes [btoa]: the binary string has the bytes as characters. *)
Lemma atob_btoa (bs : list byte) :
  atob (btoa bs) =
  Normal (string_of_list_ascii (map ascii_of_N (map Byte.to_N bs))).
Proof.
  pose proof (bytes_bounded bs) as Hbs.
  unfold atob, btoa. rewrite list_ascii_of_string_of_list_ascii.
  rewrite strip_whitespace_plain; cycle 1.
  { apply btoa_chars_plain; [|done|done]. intros n Hn. by apply sextet_char_plain. }
  destruct (encoded_length (map Byte.to_N bs)) as [Hlen Hne].
  unfold btoa_chars. rewrite remove_padding_encoded; cycle 1.
  { rewrite Forall_map. eapply Forall_impl; [by apply to_sextets_bound|].
    intros n Hn. by apply sextet_char_plain. }
  { apply padding_cases. }
  { by rewrite length_app, length_map. }
  rewrite length_map.
  destruct (length (to_sextets (map to_N bs)) mod 4 =? 1)%nat eqn:E.
  { apply Nat.eqb_eq in E. done. }
  rewrite mapM_char_sextet by (by apply to_sextets_bound).
  by rewrite decode_to_sextets.
Qed.

Lemma btoa_no_comma bs : contains_char "," (btoa bs) = false.
Proof.
  unfold contains_char, btoa. rewrite list_ascii_of_string_of_list_ascii.
  pose proof (btoa_chars_plain (λ c, Ascii.eqb "," c) (map Byte.to_N bs)) as H.
  cbv beta in H.
  assert (Hall : Forall (λ c, Ascii.eqb "," c = false) (btoa_chars (map to_N bs))).
  { apply H; [|done|apply bytes_bounded]. intros n Hn.
    rewrite Ascii.eqb_sym. by apply sextet_char_plain. }
  clear H. induction Hall as [|c l Hc _ IH]; [done|].
  cbn [existsb]. rewrite Hc. exact IH.
Qed.
End Base64Facts.

Module DataUrlFacts.

Lemma split_no_sep sep s :
  contains_char sep s = false → split sep s = [s].
Proof.
  unfold contains_char. induction s as [|c s IH]; [done|].
  cbn [list_ascii_of_string existsb split]. intros H.
  apply orb_false_iff in H as [Hc Hs]. rewrite Ascii.eqb_sym in Hc.
  by rewrite Hc, (IH Hs).
Qed.

Lemma split_header sep header payload :
  contains_char sep header = false →
  split sep (header +:+ String sep payload) = header :: split sep payload.
Proof.
  unfold contains_char. induction header as [|c s IH].
  - intros _. change ("" +:+ String sep payload) with (String sep payload).
    cbn [split]. by rewrite Ascii.eqb_refl.
  - change (String c s +:+ String sep payload)
      with (String c (s +:+ String sep payload)).
    cbn [list_ascii_of_string existsb split]. intros H.
    apply orb_false_iff in H as [Hc Hs]. rewrite Ascii.eqb_sym in Hc.
    by rewrite Hc, (IH Hs).
Qed.

(** The fill loop writes [f i] at every index. *)
Lemma fill_loop {A} (f : nat → A) (done_ rest : list A) n :
  length done_ = n →
  foldl (λ (bytes : list A) i, <[i := f i]> bytes) (done_ ++ rest) (seq 0 n)
  = map f (seq 0 n) ++ rest.
Proof.
  revert done_ rest. induction n as [|n IH]; intros done_ rest Hlen.
  - by destruct done_.
  - destruct done_ as [|a l _] using rev_ind; [done|].
    rewrite length_app in Hlen. cbn in Hlen.
    rewrite seq_S, foldl_app, map_app, <- !app_assoc. cbn [foldl map "++"].
    rewrite IH by lia.
    rewrite insert_app_r_alt by (rewrite length_map, length_seq; lia).
    rewrite length_map, length_seq, Nat.add_0_l, Nat.sub_diag. done.
Qed.

Lemma charCodeAt_all s :
  map (λ i, to_uint8 (charCodeAt s i)) (seq 0 (String.length s))
  = map (λ c, to_uint8 (N_of_ascii c)) (list_ascii_of_string s).
Proof.
  induction s as [|c s IH]; [done|].
  cbn [String.length seq map list_ascii_of_string]. f_equal.
  rewrite <- seq_shift, map_map. exact IH.
Qed.

Lemma to_uint8_of_byte b : to_uint8 (N_of_ascii (ascii_of_N (Byte.to_N b))) = b.
Proof.
  pose proof (Byte.to_N_bounded b) as Hb.
  rewrite N_ascii_embedding by lia. unfold to_uint8.
  rewrite N.mod_small by lia. by rewrite Byte.of_to_N.
Qed.

(** Whatever the data URL, the array is the binary string byte for byte:
    as long as it, with each byte its character's code. *)
Lemma dataUrlToUint8Array_copies dataUrl :
  dataUrlToUint8Array dataUrl
  = binary ← Base64.atob (to_string (split "," dataUrl !! 1%nat));
    mret (map (λ c, to_uint8 (N_of_ascii c)) (list_ascii_of_string binary)).
Proof.
  unfold dataUrlToUint8Array.
  destruct (Base64.atob _) as [binary|e]; [|done]. cbn.
  f_equal.
  rewrite <- (app_nil_r (replicate _ _)), fill_loop by apply length_replicate.
  rewrite app_nil_r. apply charCodeAt_all.
Qed.

Lemma dataUrlToUint8Array_payload header payload :
  contains_char "," header = false →
  contains_char "," payload = false →
  dataUrlToUint8Array (header +:+ "," +:+ payload)
  = binary ← Base64.atob payload;
    mret (map (λ c, to_uint8 (N_of_ascii c)) (list_ascii_of_string binary)).
Proof.
  intros Hh Hp. rewrite dataUrlToUint8Array_copies.
  change ("," +:+ payload) with (String "," payload).
  by rewrite (split_header _ _ _ Hh), (split_no_sep _ _ Hp).
Qed.

End DataUrlFacts.

(** C8. Decoding undoes encoding: for every byte array [b] and every data
    URL made of a header, a comma and the base64 text of [b],
    [dataUrlToUint8Array] returns exactly [b].  The header is the part of a
    data URL before its comma, so it contains none. *)
Theorem dataUrlToUint8Array_roundtrip (header : string) (b : list byte) :
  contains_char "," header = false →
  dataUrlToUint8Array (header +:+ "," +:+ Base64.btoa b) = Normal b.
Proof.
  intros Hheader.
  rewrite DataUrlFacts.dataUrlToUint8Array_payload
    by (done || apply Base64Facts.btoa_no_comma).
  rewrite Base64Facts.atob_btoa. cbn.
  rewrite list_ascii_of_string_of_list_ascii, !map_map. f_equal.
  rewrite <- (map_id b) at 2. apply map_ext. intros x.
  apply DataUrlFacts.to_uint8_of_byte.
Qed.

Lemma dataUrlToUint8Array_roundtrip_witness :
  contains_char "," "data:image/png;base64" = false ∧
  dataUrlToUint8Array ("data:image/png;base64" +:+ "," +:+ Base64.btoa [x89; x50; x4e; x47])
  = Normal [x89; x50; x4e; x47].
Proof.
  split; [reflexivity|].
  apply (dataUrlToUint8Array_roundtrip "data:image/png;base64" [x89; x50; x4e; x47]).
  reflexivity.
Defined.

(** ** Validation *)

Module ValidationFacts.
Import Validation.
Local Open Scope Z_scope.

(** [errors.length === 0] says the list is empty. *)
Lemma length_eqb_0 {A} (l : list A) : (length l =? 0)%nat = true ↔ l = [].
Proof. destruct l; cbn; split; intros; done. Qed.

Lemma snoc_not_nil {A} (l : list A) a : l ++ [a] ≠ [].
Proof. by destruct l. Qed.

(** Case analysis on every test [validateImage] makes. *)
Ltac split_checks :=
  repeat match goal with
    | |- context [if ?b then _ else _] => destruct b eqn:?
    | |- context [match ?k with Photo => _ | Signature => _ end] => destruct k
    end.

Lemma elem_of_snoc {A} (l : list A) a : a ∈ l ++ [a].
Proof. apply elem_of_app. right. by apply list_elem_of_singleton. Qed.

Lemma elem_of_snoc_l {A} (l : list A) a b : a ∈ l → a ∈ l ++ [b].
Proof. intros. apply elem_of_app. by left. Qed.

Create HintDb validation.
#[global] Hint Resolve elem_of_snoc elem_of_snoc_l : validation.

(** On a decoded image, [valid] is decided by the hard checks alone. *)
Lemma valid_onload img file type width height :
  img file = onload width height →
  valid (validateImage img file type)
  = type_accepted file type && size_within_cap file type
    && large_enough type width height.
Proof.
  intros Himg. unfold validateImage, type_accepted, size_within_cap, large_enough.
  rewrite Himg. cbn [valid].
  destruct (existsb _ _), (_ >? _), (_ || _); cbn; reflexivity.
Qed.

Lemma valid_onerror img file type :
  img file = onerror → valid (validateImage img file type) = false.
Proof. intros Himg. unfold validateImage. by rewrite Himg. Qed.

End ValidationFacts.

(** A 100 by 100 image is too small for a photo and large enough for a
    signature. *)
Example small_image_by_profile :
  let file := Validation.wide_photo in
  let img := λ _, Validation.onload 100 100 in
  Validation.validateImage img file Validation.Photo
  = {| Validation.valid := false;
       Validation.errors := [Validation.ImageTooSmall 100 100 150 180];
       Validation.warnings := [];
       Validation.dimensions := Some (100, 100)%Z |}
  ∧ Validation.validateImage img file Validation.Signature
  = {| Validation.valid := true;
       Validation.errors := [];
       Validation.warnings := [];
       Validation.dimensions := Some (100, 100)%Z |}.
Proof. split; reflexivity. Qed.

(** A 2100 by 700 signature is only warned about its size. *)
Example large_signature :
  Validation.validateImage (λ _, Validation.onload 2100 700) Validation.wide_photo
    Validation.Signature
  = {| Validation.valid := true;
       Validation.errors := [];
       Validation.warnings := [Validation.ImageVeryLarge 2100 700 400 150];
       Validation.dimensions := Some (2100, 700)%Z |}.
Proof. reflexivity. Qed.

(** C3. Under the photo profile a file above the 5 MB cap gets the size
    error and is invalid whatever the image is (decoded at any size, or not
    decodable); a decoded image narrower than 150 or lower than 180 pixels
    gets the "too small" error and is invalid. *)
Theorem photo_hard_errors (img : Validation.File → Validation.ImageEvent)
    (file : Validation.File) :
  let r := Validation.validateImage img file Validation.Photo in
  ((Validation.file_size file > 5 * 1024 * 1024)%Z →
     Validation.valid r = false ∧
     Validation.FileSizeExceeds (Validation.file_size file) 5 ∈ Validation.errors r)
  ∧ (∀ width height,
       img file = Validation.onload width height →
       (width < 150 ∨ height < 180)%Z →
       Validation.valid r = false ∧
       Validation.ImageTooSmall width height 150 180 ∈ Validation.errors r).
Proof.
  intros r. subst r. unfold Validation.validateImage.
  cbn [Validation.constraints_of Validation.maxSizeBytes Validation.maxSizeMB
       Validation.minWidth Validation.minHeight Validation.acceptedTypes].
  split.
  - intros Hsize.
    assert (Hgt : (Validation.file_size file >? 5 * 1024 * 1024)%Z = true)
      by (apply Z.gtb_lt; lia).
    rewrite Hgt.
    destruct (img file) as [width height|];
      cbn [Validation.valid Validation.errors]; ValidationFacts.split_checks;
      (split; [first [done | apply not_true_is_false; rewrite ValidationFacts.length_eqb_0;
                              (apply ValidationFacts.snoc_not_nil || done)]
              | auto with validation]).
  - intros width height Himg Hsmall. rewrite Himg.
    assert (Hlt : (width <? 150)%Z || (height <? 180)%Z = true).
    { apply orb_true_iff. destruct Hsmall; [left | right]; apply Z.ltb_lt; lia. }
    rewrite Hlt. cbn [Validation.valid Validation.errors].
    split; [|auto with validation].
    apply not_true_is_false. rewrite ValidationFacts.length_eqb_0.
    apply ValidationFacts.snoc_not_nil.
Qed.

Lemma photo_hard_errors_witness :
  let r := Validation.validateImage (λ _, Validation.onload 100 100) Validation.six_MB_jpeg
             Validation.Photo in
  (Validation.valid r = false ∧
   Validation.FileSizeExceeds (6 * 1024 * 1024) 5 ∈ Validation.errors r) ∧
  (Validation.valid r = false ∧
   Validation.ImageTooSmall 100 100 150 180 ∈ Validation.errors r).
Proof.
  pose proof (photo_hard_errors (λ _, Validation.onload 100 100) Validation.six_MB_jpeg)
    as [Hsize Hsmall].
  split.
  - apply Hsize. reflexivity.
  - apply (Hsmall 100%Z 100%Z); [reflexivity | lia].
Defined.

(** C4. Warnings never invalidate: [valid] is true exactly when the type is
    accepted, the size is within the cap and the image decoded to at least
    the minimum size, whatever warnings were raised.  In particular a photo
    of aspect ratio 3.0 gets the aspect-ratio warning, and is valid whenever
    no hard check fails. *)
Theorem warnings_never_invalidate (img : Validation.File → Validation.ImageEvent)
    (file : Validation.File) (type : Validation.ImageKind) :
  let r := Validation.validateImage img file type in
  (Validation.valid r = true ↔
     Validation.type_accepted file type = true ∧
     Validation.size_within_cap file type = true ∧
     ∃ width height, img file = Validation.onload width height ∧
                     Validation.large_enough type width height = true)
  ∧ (∀ width height,
       type = Validation.Photo →
       img file = Validation.onload width height →
       (Validation.number_of_Z width / Validation.number_of_Z height)%float = 3%float →
       Validation.UnusualAspectPortrait 3 Validation.Photo ∈ Validation.warnings r ∧
       (Validation.errors r = [] → Validation.valid r = true)).
Proof.
  intros r. subst r. split.
  - destruct (img file) as [width height|] eqn:Himg.
    + rewrite (ValidationFacts.valid_onload _ _ _ _ _ Himg), !andb_true_iff.
      split.
      * intros [[Ht Hs] Hd]. eauto 8.
      * intros (Ht & Hs & w & h & [= <- <-] & Hd). done.
    + rewrite (ValidationFacts.valid_onerror _ _ _ Himg).
      split; [done|]. intros (_ & _ & w & h & [=] & _).
  - intros width height -> Himg Hratio. split.
    + unfold Validation.validateImage. rewrite Himg, Hratio.
      cbn [Validation.warnings Validation.constraints_of
           Validation.aspectRatioMin Validation.aspectRatioMax].
      replace (PrimFloat.ltb 1 3) with true by reflexivity.
      rewrite orb_true_r.
      destruct (_ || _); auto with validation.
    + unfold Validation.validateImage. rewrite Himg.
      cbn [Validation.valid Validation.errors]. intros ->. reflexivity.
Qed.

Lemma warnings_never_invalidate_witness :
  let r := Validation.validateImage (λ _, Validation.onload 900 300) Validation.wide_photo
             Validation.Photo in
  Validation.UnusualAspectPortrait 3 Validation.Photo ∈ Validation.warnings r ∧
  Validation.valid r = true.
Proof.
  pose proof (warnings_never_invalidate (λ _, Validation.onload 900 300) Validation.wide_photo
                Validation.Photo) as [_ Hratio].
  destruct (Hratio 900%Z 300%Z) as [Hwarn Hvalid]; [reflexivity .. |].
  split; [exact Hwarn | apply Hvalid; reflexivity].
Defined.

(** C9. Every result has [valid] true exactly when [errors] is empty and
    has [dimensions] exactly when the image decoded.  When it did not, the
    result is invalid, has no dimensions, and its errors are the type and
    size errors found before decoding followed by the corruption error. *)
Theorem validateImage_result_invariant (img : Validation.File → Validation.ImageEvent)
    (file : Validation.File) (type : Validation.ImageKind) :
  let r := Validation.validateImage img file type in
  (Validation.valid r = true ↔ Validation.errors r = [])
  ∧ (is_Some (Validation.dimensions r) ↔
       ∃ width height, img file = Validation.onload width height)
  ∧ (img file = Validation.onerror →
       Validation.dimensions r = None ∧
       Validation.valid r = false ∧
       (∃ before, Validation.errors r = before ++ [Validation.CouldNotRead] ∧
          (Validation.type_accepted file type = false ↔
             Validation.InvalidFileType
               (Validation.type_or_unknown (Validation.file_type file)) ∈ before) ∧
          (Validation.size_within_cap file type = false ↔
             Validation.FileSizeExceeds (Validation.file_size file)
               (Validation.maxSizeMB (Validation.constraints_of type)) ∈ before))).
Proof.
  intros r. subst r. split; [|split].
  - unfold Validation.validateImage.
    destruct (img file) as [width height|];
      cbn [Validation.valid Validation.errors].
    + apply ValidationFacts.length_eqb_0.
    + split; [done|]. intros H. by apply ValidationFacts.snoc_not_nil in H.
  - unfold Validation.validateImage.
    destruct (img file) as [width height|]; cbn [Validation.dimensions].
    + split; eauto.
    + split; [by intros [? ?] | by intros (? & ? & ?)].
  - intros Himg. unfold Validation.validateImage. rewrite Himg.
    cbn [Validation.valid Validation.errors Validation.dimensions].
    split; [done|]. split; [done|].
    eexists. split; [reflexivity|].
    unfold Validation.type_accepted, Validation.size_within_cap.
    destruct (existsb _ _), (_ >? _)%Z; cbn [negb app];
      split; split; intros H; try done;
      repeat (apply elem_of_cons in H as [H|H]; try done);
      try (by apply elem_of_nil in H); set_solver.
Qed.

Lemma validateImage_result_invariant_witness :
  let r := Validation.validateImage (λ _, Validation.onerror) Validation.corrupt_upload
             Validation.Signature in
  Validation.dimensions r = None ∧ Validation.valid r = false ∧
  Validation.errors r =
    [Validation.InvalidFileType "image/gif";
     Validation.FileSizeExceeds (3 * 1024 * 1024) 2;
     Validation.CouldNotRead].
Proof.
  pose proof (validateImage_result_invariant (λ _, Validation.onerror) Validation.corrupt_upload
                Validation.Signature) as (_ & _ & Herr).
  destruct Herr as (Hdim & Hvalid & _); [reflexivity|].
  split; [exact Hdim|]. split; [exact Hvalid | reflexivity].
Defined.

(** ** The composer *)

Module ComposerFacts.

Lemma page_grows_refl w : page_grows w w [].
Proof. split; [by rewrite app_nil_r | done]. Qed.

Lemma page_grows_trans w1 w2 w3 l1 l2 :
  page_grows w1 w2 l1 → page_grows w2 w3 l2 → page_grows w1 w3 (l1 ++ l2).
Proof.
  intros (Hp1 & Ht1 & Hf1) (Hp2 & Ht2 & Hf2). split; [|split].
  - by rewrite Hp2, Hp1, app_assoc.
  - by rewrite Ht2.
  - by rewrite Hf2.
Qed.

Ltac run :=
  cbv [mbind M_bind mret M_ret lift log_call update_doc get_doc
       console_warn console_error try_catch].

(** A step that left the page as it was. *)
Ltac same_page := split; cbn; [by rewrite ?app_nil_r | done].

Section Steps.
Context (P : Platform) (T : FormTables).

(** The body of the field [try] ends as its pure reading says, and the
    page gets exactly what that reading draws. *)
Lemma draw_field_body_spec fieldValue coords w :
  ∃ w', page_grows w w' (drawn (overlay_attempt P fieldValue coords)) ∧
        match overlay_attempt P fieldValue coords with
        | Normal _ => draw_field_body P fieldValue coords w = (Normal tt, w')
        | Throw e => draw_field_body P fieldValue coords w = (Throw e, w')
        end.
Proof.
  unfold draw_field_body, overlay_attempt, renderTextToImage_M, embedPng, drawImage.
  run. cbv [completion_bind].
  destruct (renderTextToImage P fieldValue _ _) as [[url|e] canvas]; cbn [fst snd].
  2: { eexists. split; [|reflexivity]. same_page. }
  destruct (truthy (Some url)).
  2: { eexists. split; [|reflexivity]. same_page. }
  destruct (dataUrlToUint8Array url) as [bytes|e].
  2: { eexists. split; [|reflexivity]. same_page. }
  destruct (pdf_embedPng P bytes) as [[]|e].
  2: { eexists. split; [|reflexivity]. same_page. }
  destruct (page_drawImage P (PngImage bytes) _) as [[]|e].
  2: { eexists. split; [|reflexivity]. same_page. }
  eexists. split; [|reflexivity]. repeat split.
Qed.

Lemma draw_field_spec entry w :
  ∃ w', draw_field P T entry w = (Normal tt, w') ∧
        page_grows w w' (entry_overlay P T entry).
Proof.
  destruct entry as [fieldName fieldValue].
  unfold draw_field, entry_overlay. cbn [fst snd].
  destruct (FIELD_COORDS T !! fieldName) as [coords|].
  2: { eexists. split; [reflexivity | apply page_grows_refl]. }
  destruct (draw_field_body_spec fieldValue coords w) as (w' & Hpage & Hrun).
  unfold try_catch.
  destruct (overlay_attempt P fieldValue coords) as [d|e]; rewrite Hrun.
  - eauto.
  - eexists. split; [reflexivity|]. exact Hpage.
Qed.

Lemma for_of_draw_field entries w :
  ∃ w', for_of entries (draw_field P T) w = (Normal tt, w') ∧
        page_grows w w' (flat_map (entry_overlay P T) entries).
Proof.
  revert w. induction entries as [|entry entries IH]; intros w.
  - eexists. split; [reflexivity | apply page_grows_refl].
  - destruct (draw_field_spec entry w) as (w1 & Hrun & Hpage).
    destruct (IH w1) as (w2 & Hrun2 & Hpage2).
    exists w2. split.
    + cbn [for_of]. unfold mbind, M_bind. by rewrite Hrun.
    + cbn [flat_map]. by eapply page_grows_trans.
Qed.

Lemma flatten_guarded w :
  ∃ w', try_catch (flatten P) (λ _, mret tt) w = (Normal tt, w') ∧
        firstPage (pdfDoc w') = firstPage (pdfDoc w) ∧
        template (pdfDoc w') = template (pdfDoc w) ∧
        form (pdfDoc w') = flatten_result P.
Proof.
  unfold flatten, try_catch, flatten_result. run.
  destruct (form_flatten P) as [[]|e]; run;
    (eexists; split; [reflexivity | repeat split]).
Qed.

Lemma embed_asset_body_spec dataUrl box w :
  ∃ w', page_grows w w' (drawn (asset_attempt P dataUrl box)) ∧
        match asset_attempt P dataUrl box with
        | Normal _ => embed_asset_body P dataUrl box w = (Normal tt, w')
        | Throw e => embed_asset_body P dataUrl box w = (Throw e, w')
        end.
Proof.
  unfold embed_asset_body, asset_attempt, embedPng, embedJpg, drawImage.
  run. cbv [completion_bind].
  destruct (dataUrlToUint8Array dataUrl) as [bytes|e].
  2: { eexists. split; [|reflexivity]. same_page. }
  destruct (getImageType dataUrl).
  - destruct (pdf_embedPng P bytes) as [[]|e].
    2: { eexists. split; [|reflexivity]. same_page. }
    destruct (page_drawImage P (PngImage bytes) _) as [[]|e].
    2: { eexists. split; [|reflexivity]. same_page. }
    eexists. split; [|reflexivity]. repeat split.
  - destruct (pdf_embedJpg P bytes) as [[]|e].
    2: { eexists. split; [|reflexivity]. same_page. }
    destruct (page_drawImage P (JpgImage bytes) _) as [[]|e].
    2: { eexists. split; [|reflexivity]. same_page. }
    eexists. split; [|reflexivity]. repeat split.
Qed.

Lemma guarded_asset asset box message w :
  ∃ w', (if truthy asset
         then try_catch (embed_asset_body P (to_string asset) box)
                (λ err, console_error message err)
         else mret tt) w = (Normal tt, w') ∧
        page_grows w w' (asset_overlay P asset box).
Proof.
  unfold asset_overlay. destruct (truthy asset).
  2: { eexists. split; [reflexivity | apply page_grows_refl]. }
  destruct (embed_asset_body_spec (to_string asset) box w) as (w' & Hpage & Hrun).
  unfold try_catch.
  destruct (asset_attempt P (to_string asset) box) as [d|e]; rewrite Hrun.
  - eauto.
  - eexists. split; [reflexivity|]. exact Hpage.
Qed.

(** Between load and save nothing propagates; the page holds what the
    steps drew and the form is as [flatten] left it. *)
Lemma fill_loaded_spec formValues images w :
  ∃ w', fill_loaded P T formValues images w = (Normal tt, w') ∧
        firstPage (pdfDoc w') =
          firstPage (pdfDoc w)
          ++ flat_map (entry_overlay P T) (build_pdfFieldData T formValues)
          ++ asset_overlay P (photo images) (PHOTO_BOX T)
          ++ asset_overlay P (signature images) (SIGNATURE_POSITIONS_student T) ∧
        template (pdfDoc w') = template (pdfDoc w) ∧
        form (pdfDoc w') = flatten_result P.
Proof.
  destruct (for_of_draw_field (build_pdfFieldData T formValues) w)
    as (w1 & Hrun1 & Hpage1 & Htpl1 & _).
  destruct (flatten_guarded w1) as (w2 & Hrun2 & Hpage2 & Htpl2 & Hform2).
  destruct (guarded_asset (photo images) (PHOTO_BOX T)
              "Error embedding photo:" w2) as (w3 & Hrun3 & Hpage3 & Htpl3 & Hform3).
  destruct (guarded_asset (signature images) (SIGNATURE_POSITIONS_student T)
              "Error embedding signature:" w3)
    as (w4 & Hrun4 & Hpage4 & Htpl4 & Hform4).
  exists w4. split; [|split; [|split]].
  - unfold fill_loaded, add_photo, add_signature, mbind, M_bind.
    by rewrite Hrun1, Hrun2, Hrun3, Hrun4.
  - by rewrite Hpage4, Hpage3, Hpage2, Hpage1, <- !app_assoc.
  - by rewrite Htpl4, Htpl3, Htpl2.
  - by rewrite Hform4, Hform3.
Qed.

(** [fillPdfForm] as a whole, by what fetch and load answer. *)
Lemma fillPdfForm_spec formValues images w :
  let result := (fillPdfForm P T formValues images w).1 in
  match net_fetch P (BASE_PATH P +:+ "/blank-form.pdf") with
  | Throw e => result = Throw e
  | Normal pdfBytes =>
      match pdf_load P pdfBytes with
      | Throw e => result = Throw e
      | Normal _ =>
          ∃ d, result = pdf_save P d ∧
               template d = pdfBytes ∧
               form d = flatten_result P ∧
               firstPage d =
                 flat_map (entry_overlay P T) (build_pdfFieldData T formValues)
                 ++ asset_overlay P (photo images) (PHOTO_BOX T)
                 ++ asset_overlay P (signature images)
                      (SIGNATURE_POSITIONS_student T)
      end
  end.
Proof.
  cbv zeta. unfold fillPdfForm, load_template, save. run.
  destruct (net_fetch P _) as [pdfBytes|e]; [|reflexivity].
  destruct (pdf_load P pdfBytes) as [[]|e]; [|reflexivity].
  match goal with
  | |- context [fill_loaded P T formValues images ?w1] =>
      destruct (fill_loaded_spec formValues images w1)
        as (w2 & -> & Hpage & Htpl & Hform)
  end.
  exists (pdfDoc w2). cbn [fst]. repeat split; assumption.
Qed.






End Steps.
End ComposerFacts.

(** C1. Whatever fails while drawing a field, flattening the form or
    embedding the photo or the signature, the call goes on to serialize the
    document: it throws only what fetching the template, loading it or
    serializing throws.  The first page then holds the draws of the steps
    that went through; a step that threw has drawn nothing. *)
Theorem fillPdfForm_propagates_only_fatal (P : Platform) (T : FormTables)
    (formValues : gmap string string) (images : ImageData) (w : World) :
  let result := (fillPdfForm P T formValues images w).1 in
  match net_fetch P (BASE_PATH P +:+ "/blank-form.pdf") with
  | Throw e => result = Throw e
  | Normal pdfBytes =>
      match pdf_load P pdfBytes with
      | Throw e => result = Throw e
      | Normal _ =>
          ∃ d, result = pdf_save P d ∧
               template d = pdfBytes ∧
               form d = flatten_result P ∧
               firstPage d =
                 flat_map (entry_overlay P T) (build_pdfFieldData T formValues)
                 ++ asset_overlay P (photo images) (PHOTO_BOX T)
                 ++ asset_overlay P (signature images)
                      (SIGNATURE_POSITIONS_student T)
      end
  end
  ∧ (∀ entry coords e,
       FIELD_COORDS T !! entry.1 = Some coords →
       overlay_attempt P entry.2 coords = Throw e →
       entry_overlay P T entry = [])
  ∧ (∀ asset box e,
       asset_attempt P (to_string asset) box = Throw e →
       asset_overlay P asset box = []).
Proof.
  split; [apply ComposerFacts.fillPdfForm_spec|]. split.
  - intros entry coords e Hcoords Hthrow. unfold entry_overlay.
    by rewrite Hcoords, Hthrow.
  - intros asset box e Hthrow. unfold asset_overlay.
    rewrite Hthrow. by destruct (truthy asset).
Qed.

(** C6. The canvas is set to [fieldWidth * 4] by [fieldHeight * 4], an
    upscale factor of at least 3, and the font is [fieldHeight * 0.85] put
    on the canvas at that same factor. *)
Theorem rasterizer_surface_and_font (P : Platform) (text : string)
    (fieldWidth fieldHeight : float) :
  let canvas := (renderTextToImage P text fieldWidth fieldHeight).2 in
  let scale := 4%float in
  let fontSize := (fieldHeight * 0x1.b333333333333p-1)%float in
  PrimFloat.leb 3 scale = true
  ∧ (∀ v, set_width v ∈ canvas ↔ v = (fieldWidth * scale)%float)
  ∧ (∀ v, set_height v ∈ canvas ↔ v = (fieldHeight * scale)%float)
  ∧ (∀ px families, set_font px families ∈ canvas → px = (fontSize * scale)%float)
  ∧ (canvas_getContext P (surface_calls fieldWidth fieldHeight) = true ↔
       ∃ families, set_font (fontSize * scale) families ∈ canvas).
Proof.
  cbv zeta. unfold renderTextToImage, surface_calls.
  split; [reflexivity|].
  destruct (canvas_getContext P _); cbn [negb snd app];
    repeat split; intros;
    repeat match goal with
      | H : _ ∈ _ :: _ |- _ => apply elem_of_cons in H as [H | H]
      | H : _ ∈ [] |- _ => by apply elem_of_nil in H
      | H : ∃ _, _ |- _ => destruct H
      | H : @eq CanvasCall _ _ |- _ => first [discriminate H | injection H as ?]
      end;
    subst; try done; try (eexists; set_solver); set_solver.
Qed.

Lemma rasterizer_surface_and_font_witness :
  set_width 1456 ∈ (renderTextToImage Samples.working "Karate" 364 11).2
  ∧ set_height 44 ∈ (renderTextToImage Samples.working "Karate" 364 11).2
  ∧ ∃ families,
      set_font (11 * 0x1.b333333333333p-1 * 4) families
      ∈ (renderTextToImage Samples.working "Karate" 364 11).2.
Proof.
  destruct (rasterizer_surface_and_font Samples.working "Karate" 364 11)
    as (_ & Hwidth & Hheight & _ & Hfont).
  split; [apply Hwidth; reflexivity|].
  split; [apply Hheight; reflexivity|].
  apply Hfont. reflexivity.
Defined.

(** C7. When no 2d context can be had, the rasterizer returns the empty
    string instead of throwing, and the composer draws nothing for that
    field: no image is embedded, nothing is logged, and the loop goes on
    with the next field. *)
Theorem no_context_skips_field (P : Platform) (T : FormTables)
    (fieldName fieldValue : string) (coords : FieldRect.t)
    (rest : list (string * string)) (w : World) :
  FIELD_COORDS T !! fieldName = Some coords →
  canvas_getContext P (surface_calls (FieldRect.w coords) (FieldRect.h coords)) = false →
  (renderTextToImage P fieldValue (FieldRect.w coords) (FieldRect.h coords)).1
    = Normal ""
  ∧ ∃ w', draw_field P T (fieldName, fieldValue) w = (Normal tt, w') ∧
          pdfDoc w' = pdfDoc w ∧
          console w' = console w ∧
          calls w' = calls w ++ [call_canvas (surface_calls (FieldRect.w coords)
                                                (FieldRect.h coords))] ∧
          for_of ((fieldName, fieldValue) :: rest) (draw_field P T) w
          = for_of rest (draw_field P T) w'.
Proof.
  intros Hcoords Hctx. unfold surface_calls in *.
  assert (Hrender : renderTextToImage P fieldValue (FieldRect.w coords) (FieldRect.h coords)
                    = (Normal "", surface_calls (FieldRect.w coords) (FieldRect.h coords))).
  { unfold renderTextToImage, surface_calls. by rewrite Hctx. }
  split; [by rewrite Hrender|].
  assert (Hstep : draw_field P T (fieldName, fieldValue) w
                  = (Normal tt,
                     {| pdfDoc := pdfDoc w; console := console w;
                        calls := calls w ++ [call_canvas (surface_calls (FieldRect.w coords)
                                                            (FieldRect.h coords))] |})).
  { unfold draw_field, draw_field_body, renderTextToImage_M. rewrite Hcoords, Hrender.
    reflexivity. }
  eexists. split; [exact Hstep|]. repeat split.
  cbn [for_of]. unfold mbind, M_bind. by rewrite Hstep.
Qed.

(** The template is fetched under the base path of the deployment. *)
Example fetch_under_base_path :
  let pages := {| NEXT_PUBLIC_BASE_PATH := Some "/hkd-form-app";
                  net_fetch := λ _, Throw (mkExn "TypeError");
                  pdf_load := pdf_load Samples.working;
                  canvas_getContext := canvas_getContext Samples.working;
                  canvas_toDataURL := canvas_toDataURL Samples.working;
                  pdf_embedPng := pdf_embedPng Samples.working;
                  pdf_embedJpg := pdf_embedJpg Samples.working;
                  page_drawImage := page_drawImage Samples.working;
                  form_flatten := form_flatten Samples.working;
                  pdf_save := pdf_save Samples.working |} in
  let '(result, w) := fillPdfForm pages Samples.tables Samples.sample_values
                        Samples.no_images Samples.new_world in
  result = Throw (mkExn "TypeError")
  ∧ calls w = [call_fetch "/hkd-form-app/blank-form.pdf"]
  ∧ BASE_PATH Samples.working = "".
Proof. vm_compute. repeat split. Qed.

(** The end-to-end example: one field with coordinates and a value, no
    photo and no signature, on a working platform. *)
Example fillPdfForm_one_field :
  let '(result, w) := fillPdfForm Samples.working Samples.tables Samples.sample_values
                        Samples.no_images Samples.new_world in
  result = Normal [x25; x50; x44; x46]
  ∧ firstPage (pdfDoc w)
    = [(PngImage [x89; x50; x4e; x47], rect_options Samples.name_rect)]
  ∧ embedded (pdfDoc w) = [PngImage [x89; x50; x4e; x47]]
  ∧ form (pdfDoc w) = Flattened
  ∧ console w = []
  ∧ calls w
    = [call_fetch "/blank-form.pdf";
       call_load [x25; x50; x44; x46];
       call_canvas (renderTextToImage Samples.working "Karate" 364 11).2;
       call_embedPng [x89; x50; x4e; x47];
       call_drawImage (PngImage [x89; x50; x4e; x47]) (rect_options Samples.name_rect);
       call_flatten;
       call_save].
Proof. vm_compute. repeat split. Qed.

(** The same call when pdf-lib rejects the raster: the field is logged and
    left out, and the document is still returned. *)
Example fillPdfForm_embed_fails :
  let '(result, w) := fillPdfForm Samples.jpeg_only Samples.tables Samples.sample_values
                        Samples.no_images Samples.new_world in
  result = Normal [x25; x50; x44; x46]
  ∧ firstPage (pdfDoc w) = []
  ∧ console w
    = [console_warn_entry "Could not render field text_3zwog:" Samples.embed_error].
Proof. vm_compute. repeat split. Qed.

Lemma fillPdfForm_propagates_only_fatal_witness :
  (fillPdfForm Samples.jpeg_only Samples.tables Samples.sample_values
     Samples.no_images Samples.new_world).1 = Normal [x25; x50; x44; x46]
  ∧ entry_overlay Samples.jpeg_only Samples.tables ("text_3zwog", "Karate") = [].
Proof.
  pose proof (fillPdfForm_propagates_only_fatal Samples.jpeg_only Samples.tables
                Samples.sample_values Samples.no_images Samples.new_world)
    as (Hcall & Hfield & _).
  split.
  - cbn in Hcall. destruct Hcall as (d & -> & -> & _). reflexivity.
  - apply (Hfield ("text_3zwog", "Karate") Samples.name_rect Samples.embed_error);
      reflexivity.
Defined.

Lemma no_context_skips_field_witness :
  (renderTextToImage Samples.no_context "Karate" 364 11).1 = Normal ""
  ∧ ∃ w', draw_field Samples.no_context Samples.tables ("text_3zwog", "Karate")
            Samples.new_world = (Normal tt, w') ∧
          pdfDoc w' = Samples.blank_document ∧ console w' = [].
Proof.
  destruct (no_context_skips_field Samples.no_context Samples.tables
              "text_3zwog" "Karate" Samples.name_rect [] Samples.new_world)
    as (Hrender & w' & Hstep & Hdoc & Hconsole & _); [reflexivity .. |].
  split; [exact Hrender|]. exists w'. split; [exact Hstep|]. split; assumption.
Defined.

(** C5. The embed path follows [getImageType], which looks for [image/png]
    anywhere in the data URL: a JPEG data URL whose base64 text spells it is
    handed to [embedPng], never to [embedJpg], and on a platform that would
    have embedded it as a JPEG the photo is missing from the page. *)
Theorem jpeg_data_url_embedded_as_png (P : Platform) (T : FormTables) (w : World) :
  let bytes := Samples.jpeg_spelling_png_bytes in
  dataUrlToUint8Array Samples.jpeg_spelling_png = Normal bytes ∧
  getImageType Samples.jpeg_spelling_png = png ∧
  calls (add_photo P T Samples.jpeg_photo w).2
  = calls w ++ call_embedPng bytes
      :: match pdf_embedPng P bytes with
         | Normal _ => [call_drawImage (PngImage bytes) (PHOTO_BOX T)]
         | Throw _ => []
         end ∧
  pdf_embedJpg Samples.jpeg_only bytes = Normal tt ∧
  asset_overlay Samples.jpeg_only (photo Samples.jpeg_photo) (PHOTO_BOX T) = [].
Proof.
  assert (Hbytes : dataUrlToUint8Array Samples.jpeg_spelling_png
                   = Normal Samples.jpeg_spelling_png_bytes)
    by (vm_compute; reflexivity).
  assert (Htype : getImageType Samples.jpeg_spelling_png = png) by reflexivity.
  cbv zeta. split; [exact Hbytes|]. split; [exact Htype|].
  split; [|split; reflexivity].
  unfold add_photo.
  change (truthy (photo Samples.jpeg_photo)) with true. cbv iota.
  change (to_string (photo Samples.jpeg_photo)) with Samples.jpeg_spelling_png.
  unfold embed_asset_body, embedPng, drawImage.
  rewrite Hbytes, Htype. ComposerFacts.run.
  destruct (pdf_embedPng P _) as [[]|e]; [|reflexivity].
  destruct (page_drawImage P _ _) as [[]|e]; cbn [snd calls];
    by rewrite <- !app_assoc.
Qed.

(** The PNG side of the choice holds: a data URL with a PNG header goes to
    [embedPng]. *)
Lemma getImageType_png_header (rest : string) :
  getImageType ("data:image/png" +:+ rest) = png.
Proof. destruct rest; reflexivity. Qed.

(** And a data URL that nowhere spells [image/png] goes to [embedJpg]. *)
Lemma getImageType_otherwise (dataUrl : string) :
  includes "image/png" dataUrl = false → getImageType dataUrl = jpg.
Proof. unfold getImageType. by intros ->. Qed.

(** * More of [pdf-utils.ts] *)

(** ** More about the composer *)

Module EffectFacts.

(** Worlds are compared field by field, up to [++ []] and association. *)
Ltac same_world w :=
  destruct w as [[? ? ? ?] ? ?]; cbn;
  rewrite ?app_nil_r, <- ?app_assoc; reflexivity.

Lemma apply_no_effect w : apply_effect no_effect w = w.
Proof. unfold apply_effect. same_world w. Qed.

Lemma apply_then_effect e1 e2 w :
  apply_effect (then_effect e1 e2) w = apply_effect e2 (apply_effect e1 w).
Proof. unfold apply_effect, then_effect. same_world w. Qed.

Section Steps.
Context (P : Platform) (T : FormTables).

Lemma draw_field_effect entry w :
  draw_field P T entry w = (Normal tt, apply_effect (entry_effect P T entry) w).
Proof.
  destruct entry as [fieldName fieldValue].
  unfold draw_field, entry_effect. cbn [fst snd].
  destruct (FIELD_COORDS T !! fieldName) as [coords|];
    [|by rewrite apply_no_effect].
  unfold draw_field_body, renderTextToImage_M, embedPng, drawImage, embed_and_draw,
    failed, field_warning, then_effect, apply_effect.
  ComposerFacts.run.
  destruct (renderTextToImage P fieldValue _ _) as [[url|e] canvas]; cbn [fst snd];
    [|f_equal; same_world w].
  destruct (truthy (Some url)); [|f_equal; same_world w].
  destruct (dataUrlToUint8Array url) as [bytes|e]; [|f_equal; same_world w].
  destruct (pdf_embedPng P bytes) as [[]|e]; [|f_equal; same_world w].
  destruct (page_drawImage P (PngImage bytes) _) as [[]|e]; f_equal; same_world w.
Qed.

Lemma for_of_draw_field_effect entries w :
  for_of entries (draw_field P T) w
  = (Normal tt, apply_effect (all_effects (map (entry_effect P T) entries)) w).
Proof.
  revert w. induction entries as [|entry entries IH]; intros w.
  - cbn. by rewrite apply_no_effect.
  - cbn [for_of map all_effects foldr]. unfold mbind, M_bind.
    rewrite draw_field_effect, IH. by rewrite apply_then_effect.
Qed.

Lemma flatten_effect w :
  try_catch (flatten P) (λ _, mret tt) w = (Normal tt, after_flatten P w).
Proof.
  unfold flatten, try_catch, after_flatten, flatten_result. ComposerFacts.run.
  by destruct (form_flatten P) as [[]|e].
Qed.

Lemma guarded_asset_effect asset box message w :
  (if truthy asset
   then try_catch (embed_asset_body P (to_string asset) box)
          (λ err, console_error message err)
   else mret tt) w
  = (Normal tt, apply_effect (asset_effect P asset box message) w).
Proof.
  unfold asset_effect. destruct (truthy asset); [|by rewrite apply_no_effect].
  unfold embed_asset_body, embedPng, embedJpg, drawImage, embed_and_draw, failed,
    apply_effect.
  ComposerFacts.run.
  destruct (dataUrlToUint8Array (to_string asset)) as [bytes|e];
    [|f_equal; same_world w].
  destruct (getImageType (to_string asset)).
  - destruct (pdf_embedPng P bytes) as [[]|e]; [|f_equal; same_world w].
    destruct (page_drawImage P (PngImage bytes) _) as [[]|e]; f_equal; same_world w.
  - destruct (pdf_embedJpg P bytes) as [[]|e]; [|f_equal; same_world w].
    destruct (page_drawImage P (JpgImage bytes) _) as [[]|e]; f_equal; same_world w.
Qed.

Lemma load_template_run w :
  load_template P w
  = let url := BASE_PATH P +:+ "/blank-form.pdf" in
    match net_fetch P url with
    | Throw e => (Throw e, with_calls w [call_fetch url])
    | Normal pdfBytes =>
        match pdf_load P pdfBytes with
        | Throw e => (Throw e, with_calls w [call_fetch url; call_load pdfBytes])
        | Normal _ =>
            (Normal tt,
             {| pdfDoc := {| template := pdfBytes; embedded := [];
                             firstPage := []; form := Interactive |};
                console := console w;
                calls := calls w ++ [call_fetch url; call_load pdfBytes] |})
        end
    end.
Proof.
  unfold load_template, with_calls. ComposerFacts.run. cbv zeta.
  destruct (net_fetch P _) as [pdfBytes|e]; [|done].
  destruct (pdf_load P pdfBytes) as [[]|e]; cbn; by rewrite <- app_assoc.
Qed.

Lemma fill_loaded_run formValues images w :
  fill_loaded P T formValues images w
  = (Normal tt,
     let eff := fill_effect P T formValues images in
     {| pdfDoc := {| template := template (pdfDoc w);
                     embedded := embedded (pdfDoc w) ++ eff_embedded eff;
                     firstPage := firstPage (pdfDoc w) ++ eff_drawn eff;
                     form := flatten_result P |};
        console := console w ++ eff_log eff;
        calls := calls w ++ eff_calls eff |}).
Proof.
  unfold fill_loaded, add_photo, add_signature, mbind, M_bind.
  rewrite for_of_draw_field_effect, flatten_effect, !guarded_asset_effect.
  f_equal.
  unfold fill_effect, after_flatten, apply_effect.
  cbn [all_effects foldr then_effect failed no_effect
       eff_calls eff_embedded eff_drawn eff_log pdfDoc console calls
       template embedded firstPage form].
  rewrite !app_nil_r, <- !app_assoc. reflexivity.
Qed.

Lemma fillPdfForm_run formValues images w :
  fillPdfForm P T formValues images w = fillPdfForm_outcome P T formValues images w.
Proof.
  unfold fillPdfForm, fillPdfForm_outcome, mbind, M_bind.
  rewrite load_template_run. cbv zeta.
  destruct (net_fetch P _) as [pdfBytes|e]; [|done].
  destruct (pdf_load P pdfBytes) as [[]|e]; [|done].
  rewrite fill_loaded_run. unfold save, filled_document. ComposerFacts.run.
  cbn. rewrite <- !app_assoc. reflexivity.
Qed.

End Steps.
End EffectFacts.


Module InvariantFacts.

Lemma no_effect_ok : eff_ok no_effect.
Proof. intros image box H. by apply elem_of_nil in H. Qed.

Lemma failed_ok cs log : eff_ok (failed cs log).
Proof. intros image box H. by apply elem_of_nil in H. Qed.

Lemma then_effect_ok e1 e2 : eff_ok e1 → eff_ok e2 → eff_ok (then_effect e1 e2).
Proof.
  intros H1 H2 image box. cbn. rewrite !elem_of_app.
  intros [H | H]; [left; by eapply H1 | right; by eapply H2].
Qed.

Lemma all_effects_ok l : Forall eff_ok l → eff_ok (all_effects l).
Proof.
  induction 1 as [|eff l Heff _ IH]; [apply no_effect_ok|].
  by apply then_effect_ok.
Qed.

Lemma embed_and_draw_ok P called answer image box logged :
  eff_ok (embed_and_draw P called answer image box logged).
Proof.
  unfold embed_and_draw. destruct answer as [[]|e]; [|apply failed_ok].
  destruct (page_drawImage P image box) as [[]|e]; intros i b; cbn.
  - intros H. apply list_elem_of_singleton in H as [= -> ->].
    by apply list_elem_of_singleton.
  - intros H. by apply elem_of_nil in H.
Qed.

Lemma entry_effect_ok P T entry : eff_ok (entry_effect P T entry).
Proof.
  unfold entry_effect. destruct (FIELD_COORDS T !! entry.1); [|apply no_effect_ok].
  cbv zeta. destruct (renderTextToImage P _ _ _).1; [|apply failed_ok].
  destruct (truthy _); [|apply failed_ok].
  destruct (dataUrlToUint8Array _); [|apply failed_ok].
  apply then_effect_ok; [apply failed_ok | apply embed_and_draw_ok].
Qed.

Lemma asset_effect_ok P asset box message : eff_ok (asset_effect P asset box message).
Proof.
  unfold asset_effect. destruct (truthy asset); [|apply no_effect_ok].
  destruct (dataUrlToUint8Array _); [|apply failed_ok].
  destruct (getImageType _); apply embed_and_draw_ok.
Qed.

Lemma fill_effect_ok P T formValues images : eff_ok (fill_effect P T formValues images).
Proof.
  unfold fill_effect. apply all_effects_ok. repeat constructor.
  - apply all_effects_ok, Forall_map, Forall_true. intros entry.
    apply entry_effect_ok.
  - apply failed_ok.
  - apply asset_effect_ok.
  - apply asset_effect_ok.
Qed.

End InvariantFacts.

(** X1. Whenever [fillPdfForm] returns a document, every image drawn on its
    first page was embedded in it: nothing is drawn from a failed embed. *)
Theorem drawn_images_are_embedded (P : Platform) (T : FormTables)
    (formValues : gmap string string) (images : ImageData) (w : World)
    (bytes : list byte) :
  (fillPdfForm P T formValues images w).1 = Normal bytes →
  drawn_are_embedded (pdfDoc (fillPdfForm P T formValues images w).2).
Proof.
  rewrite EffectFacts.fillPdfForm_run. unfold fillPdfForm_outcome. cbv zeta.
  destruct (net_fetch P _) as [pdfBytes|e]; [|done].
  destruct (pdf_load P pdfBytes) as [[]|e]; [|done].
  intros _. cbn [snd pdfDoc]. unfold drawn_are_embedded, filled_document.
  cbn [firstPage embedded]. apply InvariantFacts.fill_effect_ok.
Qed.

Lemma drawn_images_are_embedded_witness :
  drawn_are_embedded
    (pdfDoc (fillPdfForm Samples.working Samples.tables Samples.sample_values
               Samples.jpeg_photo Samples.new_world).2).
Proof.
  apply (drawn_images_are_embedded Samples.working Samples.tables Samples.sample_values
           Samples.jpeg_photo Samples.new_world [x25; x50; x44; x46]).
  vm_compute. reflexivity.
Defined.

Module LogFacts.

Lemma all_effects_log {A} (f : A → Effect) l :
  eff_log (all_effects (map f l)) = flat_map (λ a, eff_log (f a)) l.
Proof. unfold all_effects. induction l as [|a l IH]; [done|]. cbn. by rewrite IH. Qed.

Lemma all_effects_calls {A} (f : A → Effect) l :
  eff_calls (all_effects (map f l)) = flat_map (λ a, eff_calls (f a)) l.
Proof. unfold all_effects. induction l as [|a l IH]; [done|]. cbn. by rewrite IH. Qed.


Lemma all_effects_embedded {A} (f : A → Effect) l :
  eff_embedded (all_effects (map f l)) = flat_map (λ a, eff_embedded (f a)) l.
Proof. unfold all_effects. induction l as [|a l IH]; [done|]. cbn. by rewrite IH. Qed.

Section Readings.
Context (P : Platform) (T : FormTables).

(** The log of a field step is the warning of its attempt, if it threw. *)
Lemma entry_effect_log entry :
  eff_log (entry_effect P T entry) = entry_log P T entry.
Proof.
  unfold entry_effect, entry_log, overlay_attempt, embed_and_draw, failed.
  destruct (FIELD_COORDS T !! entry.1) as [coords|]; [|done]. cbv zeta.
  unfold mbind, completion_bind, mret, completion_ret.
  destruct (renderTextToImage P _ _ _).1 as [url|e]; [|done].
  destruct (truthy (Some url)); [|done].
  destruct (dataUrlToUint8Array url) as [bytes|e]; [|done].
  destruct (pdf_embedPng P bytes) as [[]|e]; [|done].
  by destruct (page_drawImage P _ _) as [[]|e].
Qed.


Lemma asset_effect_log asset box message :
  eff_log (asset_effect P asset box message) = asset_log P asset box message.
Proof.
  unfold asset_effect, asset_log, asset_attempt, embed_and_draw, failed.
  destruct (truthy asset); [|done].
  unfold mbind, completion_bind, mret, completion_ret.
  destruct (dataUrlToUint8Array _) as [bytes|e]; [|done].
  destruct (getImageType _).
  - destruct (pdf_embedPng P bytes) as [[]|e]; [|done].
    by destruct (page_drawImage P _ _) as [[]|e].
  - destruct (pdf_embedJpg P bytes) as [[]|e]; [|done].
    by destruct (page_drawImage P _ _) as [[]|e].
Qed.

Lemma fill_effect_log formValues images :
  eff_log (fill_effect P T formValues images)
  = flat_map (entry_log P T) (build_pdfFieldData T formValues)
    ++ asset_log P (photo images) (PHOTO_BOX T) "Error embedding photo:"
    ++ asset_log P (signature images) (SIGNATURE_POSITIONS_student T)
         "Error embedding signature:".
Proof.
  unfold fill_effect. cbn [all_effects foldr then_effect eff_log failed no_effect].
  rewrite all_effects_log, !asset_effect_log, app_nil_r. cbn [app].
  f_equal. apply flat_map_ext. intros entry. apply entry_effect_log.
Qed.

Lemma fill_effect_calls formValues images :
  eff_calls (fill_effect P T formValues images)
  = flat_map (λ entry, eff_calls (entry_effect P T entry))
      (build_pdfFieldData T formValues)
    ++ [call_flatten]
    ++ eff_calls (asset_effect P (photo images) (PHOTO_BOX T) "Error embedding photo:")
    ++ eff_calls (asset_effect P (signature images) (SIGNATURE_POSITIONS_student T)
                    "Error embedding signature:").
Proof.
  unfold fill_effect. cbn [all_effects foldr then_effect eff_calls failed no_effect].
  by rewrite all_effects_calls, app_nil_r.
Qed.

End Readings.
End LogFacts.

(** X2. Once the template is loaded, the console gets exactly one entry per
    step that threw, in order: a warning naming the field for each field
    whose rendering, decoding, embedding or drawing threw, then an error for
    the photo and one for the signature if theirs did.  A [flatten] that
    throws is not logged. *)
Theorem console_logs_each_failure (P : Platform) (T : FormTables)
    (formValues : gmap string string) (images : ImageData) (w : World)
    (pdfBytes : list byte) :
  net_fetch P (BASE_PATH P +:+ "/blank-form.pdf") = Normal pdfBytes →
  pdf_load P pdfBytes = Normal tt →
  console (fillPdfForm P T formValues images w).2
  = console w
    ++ flat_map (entry_log P T) (build_pdfFieldData T formValues)
    ++ asset_log P (photo images) (PHOTO_BOX T) "Error embedding photo:"
    ++ asset_log P (signature images) (SIGNATURE_POSITIONS_student T)
         "Error embedding signature:".
Proof.
  intros Hfetch Hload.
  rewrite EffectFacts.fillPdfForm_run. unfold fillPdfForm_outcome. cbv zeta.
  rewrite Hfetch, Hload. cbn [snd console].
  by rewrite LogFacts.fill_effect_log.
Qed.

Lemma console_logs_each_failure_witness :
  console (fillPdfForm Samples.jpeg_only Samples.tables Samples.sample_values
             Samples.jpeg_photo Samples.new_world).2
  = [console_warn_entry "Could not render field text_3zwog:" Samples.embed_error;
     console_error_entry "Error embedding photo:" Samples.embed_error].
Proof.
  rewrite (console_logs_each_failure Samples.jpeg_only Samples.tables
             Samples.sample_values Samples.jpeg_photo Samples.new_world
             [x25; x50; x44; x46]); reflexivity.
Defined.

(** X3. The calls [fillPdfForm] makes, in order: fetch, load, then for each
    entry of [pdfFieldData] its canvas, [embedPng] and [drawImage], then
    [flatten] once, the photo's calls, the signature's, and [save] last.  A
    field never goes through [embedJpg], and [save] is called exactly once. *)
Theorem calls_in_pipeline_order (P : Platform) (T : FormTables)
    (formValues : gmap string string) (images : ImageData) (w : World)
    (pdfBytes : list byte) :
  let url := BASE_PATH P +:+ "/blank-form.pdf" in
  let made := flat_map (λ entry, eff_calls (entry_effect P T entry))
                (build_pdfFieldData T formValues)
              ++ [call_flatten]
              ++ eff_calls (asset_effect P (photo images) (PHOTO_BOX T)
                              "Error embedding photo:")
              ++ eff_calls (asset_effect P (signature images)
                              (SIGNATURE_POSITIONS_student T)
                              "Error embedding signature:") in
  net_fetch P url = Normal pdfBytes →
  pdf_load P pdfBytes = Normal tt →
  calls (fillPdfForm P T formValues images w).2
  = calls w ++ [call_fetch url; call_load pdfBytes] ++ made ++ [call_save]
  ∧ (call_save ∉ made)
  ∧ (∀ entry bytes, call_embedJpg bytes ∉ eff_calls (entry_effect P T entry)).
Proof.
  intros url made Hfetch Hload. subst url made.
  assert (Hentry : ∀ entry c, c ∈ eff_calls (entry_effect P T entry) →
            (∃ cs, c = call_canvas cs) ∨ (∃ b, c = call_embedPng b)
            ∨ (∃ i b, c = call_drawImage i b)).
  { intros entry c. unfold entry_effect, embed_and_draw, failed.
    destruct (FIELD_COORDS T !! entry.1); [|by intros ?%elem_of_nil]. cbv zeta.
    destruct (renderTextToImage P _ _ _).1;
      [|intros ->%list_elem_of_singleton; eauto].
    destruct (truthy _); [|intros ->%list_elem_of_singleton; eauto].
    destruct (dataUrlToUint8Array _); [|intros ->%list_elem_of_singleton; eauto].
    destruct (pdf_embedPng P _) as [[]|?];
      [destruct (page_drawImage P _ _) as [[]|?]|]; cbn;
      rewrite ?elem_of_cons; intros H; repeat destruct H as [-> | H]; eauto 6;
      by apply elem_of_nil in H. }
  assert (Hasset : ∀ asset box message c,
            c ∈ eff_calls (asset_effect P asset box message) → c ≠ call_save).
  { intros asset box message c. unfold asset_effect, embed_and_draw, failed.
    destruct (truthy asset); [|by intros ?%elem_of_nil].
    destruct (dataUrlToUint8Array _); [|by intros ?%elem_of_nil].
    destruct (getImageType _);
      [destruct (pdf_embedPng P _) as [[]|?] | destruct (pdf_embedJpg P _) as [[]|?]];
      try destruct (page_drawImage P _ _) as [[]|?]; cbn;
      rewrite ?elem_of_cons; intros H; repeat destruct H as [-> | H]; try done;
      by apply elem_of_nil in H. }
  split; [|split].
  - rewrite EffectFacts.fillPdfForm_run. unfold fillPdfForm_outcome. cbv zeta.
    rewrite Hfetch, Hload. cbn [snd calls].
    by rewrite LogFacts.fill_effect_calls.
  - rewrite !elem_of_app. intros [H | [H | [H | H]]].
    + apply list_elem_of_In, in_flat_map in H as (entry & _ & H).
      apply list_elem_of_In, Hentry in H as [[? ?] | [[? ?] | (? & ? & ?)]]; done.
    + by apply list_elem_of_singleton in H.
    + by apply Hasset in H.
    + by apply Hasset in H.
  - intros entry bytes H.
    apply Hentry in H as [[? ?] | [[? ?] | (? & ? & ?)]]; done.
Qed.


Lemma calls_in_pipeline_order_witness :
  calls (fillPdfForm Samples.working Samples.tables Samples.sample_values
           Samples.jpeg_photo Samples.new_world).2
  = [call_fetch "/blank-form.pdf";
     call_load [x25; x50; x44; x46];
     call_canvas (renderTextToImage Samples.working "Karate" 364 11).2;
     call_embedPng [x89; x50; x4e; x47];
     call_drawImage (PngImage [x89; x50; x4e; x47]) (rect_options Samples.name_rect);
     call_flatten;
     call_embedPng Samples.jpeg_spelling_png_bytes;
     call_drawImage (PngImage Samples.jpeg_spelling_png_bytes) Samples.a_box;
     call_save].
Proof.
  destruct (calls_in_pipeline_order Samples.working Samples.tables
              Samples.sample_values Samples.jpeg_photo Samples.new_world
              [x25; x50; x44; x46]) as (Hcalls & _ & _); [reflexivity .. |].
  rewrite Hcalls. vm_compute. reflexivity.
Defined.

(** X4. When fetching the template throws, [fillPdfForm] throws the same
    and has done nothing else: no load, no canvas, no save; when loading
    throws, the only calls made are that fetch and that load.  The console
    and the document are as they were. *)
Theorem fatal_failure_stops_early (P : Platform) (T : FormTables)
    (formValues : gmap string string) (images : ImageData) (w : World) (e : Exn) :
  let url := BASE_PATH P +:+ "/blank-form.pdf" in
  (net_fetch P url = Throw e →
     fillPdfForm P T formValues images w = (Throw e, with_calls w [call_fetch url]))
  ∧ (∀ pdfBytes,
       net_fetch P url = Normal pdfBytes →
       pdf_load P pdfBytes = Throw e →
       fillPdfForm P T formValues images w
       = (Throw e, with_calls w [call_fetch url; call_load pdfBytes])).
Proof.
  cbv zeta. split.
  - intros Hfetch. rewrite EffectFacts.fillPdfForm_run. unfold fillPdfForm_outcome.
    cbv zeta. by rewrite Hfetch.
  - intros pdfBytes Hfetch Hload. rewrite EffectFacts.fillPdfForm_run.
    unfold fillPdfForm_outcome. cbv zeta. by rewrite Hfetch, Hload.
Qed.

Lemma fatal_failure_stops_early_witness :
  fillPdfForm MoreSamples.not_a_pdf Samples.tables Samples.sample_values
    Samples.jpeg_photo Samples.new_world
  = (Throw Samples.embed_error,
     {| pdfDoc := Samples.blank_document; console := [];
        calls := [call_fetch "/blank-form.pdf"; call_load [x3c; x68; x74; x6d; x6c; x3e]] |}).
Proof.
  destruct (fatal_failure_stops_early MoreSamples.not_a_pdf Samples.tables
              Samples.sample_values Samples.jpeg_photo Samples.new_world
              Samples.embed_error) as [_ Hload].
  rewrite (Hload [x3c; x68; x74; x6d; x6c; x3e]); reflexivity.
Defined.

Module EmptyFacts.

Lemma build_nothing_filled T formValues :
  nothing_filled T formValues → build_pdfFieldData T formValues = [].
Proof.
  unfold nothing_filled, build_pdfFieldData.
  induction (FORM_FIELDS T) as [|field fields IH]; [done|].
  intros Hnone. cbn [foldl].
  pose proof (Hnone field (list_elem_of_here _ _)) as Hfield.
  destruct (formValues !! FormField.id field) as [value|].
  - rewrite Hfield. apply IH. intros f Hf. apply Hnone. by right.
  - apply IH. intros f Hf. apply Hnone. by right.
Qed.

End EmptyFacts.

(** X5. With no field filled in (every value missing or empty) and neither
    photo nor signature, [fillPdfForm] makes no canvas and embeds and draws
    nothing: it fetches, loads, flattens and saves the template as it is. *)
Theorem nothing_to_fill (P : Platform) (T : FormTables)
    (formValues : gmap string string) (images : ImageData) (w : World)
    (pdfBytes : list byte) :
  let url := BASE_PATH P +:+ "/blank-form.pdf" in
  let d := {| template := pdfBytes; embedded := []; firstPage := [];
              form := flatten_result P |} in
  net_fetch P url = Normal pdfBytes →
  pdf_load P pdfBytes = Normal tt →
  nothing_filled T formValues →
  truthy (photo images) = false →
  truthy (signature images) = false →
  fillPdfForm P T formValues images w
  = (pdf_save P d,
     {| pdfDoc := d; console := console w;
        calls := calls w ++ [call_fetch url; call_load pdfBytes;
                             call_flatten; call_save] |}).
Proof.
  intros url d Hfetch Hload Hnone Hphoto Hsignature. subst url d.
  rewrite EffectFacts.fillPdfForm_run. unfold fillPdfForm_outcome. cbv zeta.
  rewrite Hfetch, Hload.
  unfold filled_document, fill_effect, asset_effect.
  rewrite (EmptyFacts.build_nothing_filled T formValues Hnone), Hphoto, Hsignature.
  cbn. by rewrite app_nil_r.
Qed.

Lemma nothing_to_fill_witness :
  fillPdfForm Samples.working Samples.tables {[ "name_bn" := "" ]}
    Samples.no_images Samples.new_world
  = (Normal [x25; x50; x44; x46],
     {| pdfDoc := {| template := [x25; x50; x44; x46]; embedded := [];
                     firstPage := []; form := Flattened |};
        console := [];
        calls := [call_fetch "/blank-form.pdf"; call_load [x25; x50; x44; x46];
                  call_flatten; call_save] |}).
Proof.
  rewrite (nothing_to_fill Samples.working Samples.tables {[ "name_bn" := "" ]}
             Samples.no_images Samples.new_world [x25; x50; x44; x46]);
    try reflexivity.
  intros field Hfield. repeat (apply elem_of_cons in Hfield as [-> | Hfield]);
    [reflexivity | reflexivity | by apply elem_of_nil in Hfield].
Defined.

Module FieldDataFacts.

Lemma record_set_keys k v obj :
  map fst (record_set k v obj)
  = if existsb (λ kv, String.eqb kv.1 k) obj then map fst obj else map fst obj ++ [k].
Proof.
  unfold record_set. destruct (existsb _ obj) eqn:Hex.
  - rewrite map_map. apply map_ext. intros [k' v']. cbn.
    destruct (String.eqb k' k) eqn:Heq; [|done].
    apply String.eqb_eq in Heq. by subst.
  - by rewrite map_app.
Qed.

Lemma existsb_key k (obj : list (string * string)) :
  existsb (λ kv, String.eqb kv.1 k) obj = true ↔ k ∈ map fst obj.
Proof.
  rewrite existsb_exists, list_elem_of_In, in_map_iff. split.
  - intros ([k' v'] & Hin & Heq). apply String.eqb_eq in Heq. cbn in Heq. subst.
    by exists (k, v').
  - intros ([k' v'] & Heq & Hin). cbn in Heq. subst.
    exists (k, v'). split; [done|]. apply String.eqb_refl.
Qed.

Lemma record_set_NoDup k v obj :
  NoDup (map fst obj) → NoDup (map fst (record_set k v obj)).
Proof.
  intros Hnodup. rewrite record_set_keys.
  destruct (existsb _ obj) eqn:Hex; [done|].
  apply NoDup_app. split; [done|]. split; [|apply NoDup_singleton].
  intros k' Hk' ->%list_elem_of_singleton.
  apply existsb_key in Hk'. congruence.
Qed.

(** After [obj[k] = v], [k] holds [v] and every other key what it held. *)
Lemma record_set_elem_of k v obj k' v' :
  (k', v') ∈ record_set k v obj ↔
  if String.eqb k' k then v' = v else (k', v') ∈ obj.
Proof.
  unfold record_set. destruct (existsb _ obj) eqn:Hex.
  - rewrite list_elem_of_fmap. destruct (String.eqb k' k) eqn:Heq.
    + apply String.eqb_eq in Heq. subst k'. split.
      * intros ([k0 v0] & Hkv & Hin). cbn in Hkv.
        destruct (String.eqb k0 k) eqn:Hk0; [by injection Hkv|].
        injection Hkv as -> ->. by rewrite String.eqb_refl in Hk0.
      * intros ->. apply existsb_key, list_elem_of_fmap in Hex as ([k0 v0] & Hk & Hin).
        cbn in Hk. subst k0. exists (k, v0). cbn. by rewrite String.eqb_refl.
    + split.
      * intros ([k0 v0] & Hkv & Hin). cbn in Hkv.
        destruct (String.eqb k0 k) eqn:Hk0.
        -- injection Hkv as -> ->. by rewrite String.eqb_refl in Heq.
        -- by injection Hkv as -> ->.
      * intros Hin. exists (k', v'). cbn. by rewrite Heq.
  - rewrite elem_of_app, list_elem_of_singleton.
    destruct (String.eqb k' k) eqn:Heq.
    + apply String.eqb_eq in Heq. subst k'. split.
      * intros [Hin | [= ->]]; [|done].
        assert (k ∈ map fst obj) as Hk%existsb_key; [|congruence].
        apply list_elem_of_fmap. by exists (k, v').
      * intros ->. by right.
    + split; [|by left]. intros [Hin | [= -> ->]]; [done|].
      by rewrite String.eqb_refl in Heq.
Qed.

Section Build.
Context (formValues : gmap string string).

Lemma build_prefix fields :
  let built := foldl (pdfFieldData_step formValues) [] fields in
  NoDup (map fst built)
  ∧ ∀ k v, (k, v) ∈ built ↔ last (values_for formValues k fields) = Some v.
Proof.
  induction fields as [|field fields IH] using rev_ind; cbv zeta.
  - split; [constructor|]. intros k v. cbn. split; [|done].
    intros H. by apply elem_of_nil in H.
  - cbv zeta in IH. destruct IH as [Hnodup Hlast].
    rewrite foldl_app. cbn [foldl]. unfold pdfFieldData_step at 1 3.
    assert (Hvalues : ∀ k, values_for formValues k (fields ++ [field])
              = values_for formValues k fields
                ++ (if String.eqb (FormField.pdfFieldId field) k
                    then match formValues !! FormField.id field with
                         | Some value => if truthy (Some value) then [value] else []
                         | None => []
                         end
                    else [])).
    { intros k. unfold values_for. rewrite flat_map_app. cbn [flat_map].
      by rewrite app_nil_r. }
    destruct (formValues !! FormField.id field) as [value|] eqn:Hvalue.
    2: { split; [done|]. intros k v. rewrite Hlast, Hvalues.
         destruct (String.eqb _ k); by rewrite app_nil_r. }
    destruct (truthy (Some value)) eqn:Htruthy.
    2: { split; [done|]. intros k v. rewrite Hlast, Hvalues.
         destruct (String.eqb _ k); by rewrite app_nil_r. }
    split; [by apply record_set_NoDup|].
    intros k v. rewrite record_set_elem_of, Hvalues.
    rewrite (String.eqb_sym k).
    destruct (String.eqb (FormField.pdfFieldId field) k).
    + rewrite last_snoc. split; [by intros -> | by intros [= ->]].
    + by rewrite app_nil_r.
Qed.

End Build.
End FieldDataFacts.

Module KeyOrderFacts.

Lemma filter_other_snoc (k a : string) l :
  List.filter (λ k', negb (String.eqb k' a)) (l ++ [k])
  = List.filter (λ k', negb (String.eqb k' a)) l
    ++ (if String.eqb k a then [] else [k]).
Proof. rewrite List.filter_app. cbn. by destruct (String.eqb k a). Qed.

Lemma filter_other_elem_of (k a : string) l :
  k ∈ List.filter (λ k', negb (String.eqb k' a)) l ↔ k ∈ l ∧ k ≠ a.
Proof.
  rewrite !list_elem_of_In, List.filter_In, negb_true_iff.
  by rewrite <- not_true_iff_false, String.eqb_eq.
Qed.

Lemma first_occurrences_elem_of k keys : k ∈ first_occurrences keys ↔ k ∈ keys.
Proof.
  induction keys as [|a keys IH]; [done|]. cbn [first_occurrences].
  rewrite !elem_of_cons, filter_other_elem_of, IH.
  destruct (decide (k = a)); tauto.
Qed.

(** A key at the end is new, or was there already. *)
Lemma first_occurrences_snoc keys k :
  first_occurrences (keys ++ [k])
  = if decide (k ∈ keys) then first_occurrences keys
    else first_occurrences keys ++ [k].
Proof.
  induction keys as [|a keys IH].
  - cbn. by rewrite decide_False by apply not_elem_of_nil.
  - cbn [app first_occurrences]. rewrite IH.
    destruct (decide (k ∈ keys)) as [Hin|Hout].
    + rewrite decide_True by (by right). reflexivity.
    + rewrite filter_other_snoc.
      destruct (String.eqb k a) eqn:Heq.
      * apply String.eqb_eq in Heq. subst a.
        rewrite decide_True by left. by rewrite app_nil_r.
      * apply String.eqb_neq in Heq.
        rewrite decide_False; [done|].
        by intros [?|?]%elem_of_cons.
Qed.

Lemma first_occurrences_NoDup keys : NoDup (first_occurrences keys).
Proof.
  induction keys as [|a keys IH] using rev_ind; [constructor|].
  rewrite first_occurrences_snoc. destruct (decide (a ∈ keys)) as [|Hout]; [done|].
  apply NoDup_app. split; [done|]. split; [|apply NoDup_singleton].
  intros k Hk Hk'. rewrite first_occurrences_elem_of in Hk.
  apply list_elem_of_singleton in Hk'. subst k. exact (Hout Hk).
Qed.

(** The keys of [pdfFieldData] after each turn of the loop. *)
Lemma build_keys formValues fields :
  map fst (foldl (pdfFieldData_step formValues) [] fields)
  = first_occurrences (filled_ids formValues fields).
Proof.
  unfold filled_ids.
  induction fields as [|field fields IH] using rev_ind; [done|].
  rewrite foldl_app, flat_map_app, map_app. cbn [foldl flat_map].
  rewrite app_nil_r. unfold pdfFieldData_step at 1, selected at 2.
  destruct (formValues !! FormField.id field) as [value|];
    [|by rewrite app_nil_r].
  destruct (truthy (Some value)); [|by rewrite app_nil_r].
  cbn [map fst]. rewrite first_occurrences_snoc, FieldDataFacts.record_set_keys.
  destruct (existsb _ _) eqn:Hex.
  - apply FieldDataFacts.existsb_key in Hex.
    rewrite IH, first_occurrences_elem_of in Hex. by rewrite decide_True.
  - rewrite decide_False; [by rewrite IH|]. intros Hin.
    rewrite <- first_occurrences_elem_of, <- IH in Hin.
    apply FieldDataFacts.existsb_key in Hin. congruence.
Qed.

End KeyOrderFacts.

(** X6. With ordinary names for keys, [pdfFieldData] holds the pdf field
    ids of the fields with a non-empty value, each once and where it first
    comes in table order, and for each id the last non-empty value that
    [FORM_FIELDS] gives it: when several fields share a pdf field id, the
    entry keeps the place of the first and the value of the last.  The
    loop draws at most one overlay for an entry, and never throws on it. *)
Theorem pdfFieldData_last_value_wins (P : Platform) (T : FormTables)
    (formValues : gmap string string) :
  let pdfFieldData := build_pdfFieldData T formValues in
  ordinary_keys T = true →
  map fst pdfFieldData = first_occurrences (filled_ids formValues (FORM_FIELDS T))
  ∧ NoDup (map fst pdfFieldData)
  ∧ (∀ k v, (k, v) ∈ pdfFieldData ↔
            last (values_for formValues k (FORM_FIELDS T)) = Some v)
  ∧ (∀ entry w, ∃ w' drawn,
        draw_field P T entry w = (Normal tt, w')
        ∧ firstPage (pdfDoc w') = firstPage (pdfDoc w) ++ drawn
        ∧ (length drawn ≤ 1)%nat)
  ∧ (length (flat_map (entry_overlay P T) pdfFieldData) ≤ length pdfFieldData)%nat.
Proof.
  cbv zeta. intros _.
  destruct (FieldDataFacts.build_prefix formValues (FORM_FIELDS T)) as [Hnodup Hlast].
  pose proof (KeyOrderFacts.build_keys formValues (FORM_FIELDS T)) as Hkeys.
  change (foldl (pdfFieldData_step formValues) [] (FORM_FIELDS T))
    with (build_pdfFieldData T formValues) in Hnodup, Hlast, Hkeys.
  assert (Hone : ∀ entry, (length (entry_overlay P T entry) ≤ 1)%nat).
  { intros entry. unfold entry_overlay, drawn.
    destruct (FIELD_COORDS T !! entry.1); [|cbn; lia].
    destruct (overlay_attempt P _ _) as [[d|]|e]; cbn; lia. }
  split; [exact Hkeys|]. split; [exact Hnodup|]. split; [exact Hlast|].
  split.
  { intros entry w.
    destruct (ComposerFacts.draw_field_spec P T entry w) as (w' & Hrun & Hpage & _).
    exists w', (entry_overlay P T entry). auto. }
  clear Hnodup Hlast Hkeys.
  induction (build_pdfFieldData T formValues) as [|entry entries IH]; [done|].
  cbn [flat_map length]. rewrite length_app. specialize (Hone entry). lia.
Qed.

Lemma pdfFieldData_last_value_wins_witness :
  let pdfFieldData := build_pdfFieldData MoreSamples.shared_tables
                        MoreSamples.shared_values in
  map fst pdfFieldData = ["text_name"; "text_phone"]
  ∧ ("text_name", "Karim") ∈ pdfFieldData.
Proof.
  destruct (pdfFieldData_last_value_wins Samples.working MoreSamples.shared_tables
              MoreSamples.shared_values) as (Hkeys & _ & Hlast & _);
    [reflexivity|].
  split; [rewrite Hkeys; reflexivity | apply Hlast; reflexivity].
Defined.

(** ** Persistence *)

Module PersistenceFacts.
Import StateExnMonad Persistence.

Ltac run_in :=
  cbv [mbind StateExn_bind mret StateExn_ret try_catch_in lift_in
       setItem getItem removeItem warn].

Lemma keys_distinct :
  form_data_key ≠ photo_key ∧ form_data_key ≠ signature_key
  ∧ photo_key ≠ signature_key.
Proof. by repeat split. Qed.

(** What the three [getItem] of [loadFormFromLocalStorage] feed into. *)
Lemma load_run SP b :
  loadFormFromLocalStorage SP b
  = (Normal
       (let stored := {| photo := or_undefined (localStorage b !! photo_key);
                         signature := or_undefined (localStorage b !! signature_key) |} in
        let nothing := {| formData := JSONRecord ∅;
                          images := {| photo := None; signature := None |} |} in
        if truthy (localStorage b !! form_data_key)
        then match JSON_parse SP (to_string (localStorage b !! form_data_key)) with
             | Normal v => {| formData := v; images := stored |}
             | Throw _ => nothing
             end
        else {| formData := JSONRecord ∅; images := stored |}),
     b).
Proof.
  unfold loadFormFromLocalStorage. run_in.
  destruct (truthy (localStorage b !! form_data_key)); [|done].
  by destruct (JSON_parse SP _).
Qed.

(** [saveFormToLocalStorage] when nothing throws. *)
Lemma save_run_room SP formData images b :
  has_room SP →
  saveFormToLocalStorage SP formData images b
  = (Normal tt,
     {| localStorage :=
          store_if signature_key (signature images)
            (store_if photo_key (photo images)
               (<[form_data_key := JSON_stringify SP formData]> (localStorage b)));
        console_log := console_log b |}).
Proof.
  intros Hroom. unfold saveFormToLocalStorage, store_if. run_in.
  rewrite Hroom. destruct (truthy (photo images)), (truthy (signature images));
    cbn; rewrite ?Hroom; reflexivity.
Qed.

Lemma store_if_lookup k v items k' :
  store_if k v items !! k'
  = if decide (k = k') then (if truthy v then v else items !! k') else items !! k'.
Proof.
  unfold store_if. destruct (truthy v) eqn:Hv.
  - rewrite lookup_insert. case_decide; [|done].
    destruct v as [[|c s]|]; done.
  - by case_decide.
Qed.

Lemma or_undefined_truthy v : truthy v = true → or_undefined v = v.
Proof. unfold or_undefined. by intros ->. Qed.

End PersistenceFacts.

(** X7. Saving and then loading gives back the form data that was saved.
    The photo and the signature come back too when they were given; an
    image that was not given (missing or empty) is not cleared by the save,
    so the load returns whatever was stored under its key before. *)
Theorem save_then_load (SP : Persistence.StoragePlatform)
    (formData : gmap string string) (images : ImageData) (b : Persistence.Browser) :
  Persistence.has_room SP →
  Persistence.JSON_stringify SP formData ≠ "" →
  Persistence.JSON_parse SP (Persistence.JSON_stringify SP formData)
    = Normal (Persistence.JSONRecord formData) →
  let saved := Persistence.saveFormToLocalStorage SP formData images b in
  let kept k given :=
    if truthy given then given
    else Persistence.or_undefined (Persistence.localStorage b !! k) in
  saved.1 = Normal tt
  ∧ (Persistence.loadFormFromLocalStorage SP saved.2).1
    = Normal {| Persistence.formData := Persistence.JSONRecord formData;
                Persistence.images :=
                  {| photo := kept Persistence.photo_key (photo images);
                     signature := kept Persistence.signature_key (signature images) |} |}.
Proof.
  intros Hroom Hnonempty Hcodec saved kept. subst saved kept.
  rewrite (PersistenceFacts.save_run_room _ _ _ _ Hroom). split; [done|].
  rewrite PersistenceFacts.load_run. cbv zeta. cbn [fst snd Persistence.localStorage].
  destruct PersistenceFacts.keys_distinct as (Hfp & Hfs & Hps).
  rewrite !PersistenceFacts.store_if_lookup.
  rewrite !decide_False by done. rewrite !decide_True by done.
  rewrite !decide_False by done.
  rewrite lookup_insert_eq, !lookup_insert_ne by done.
  cbn [to_string].
  assert (Htruthy : truthy (Some (Persistence.JSON_stringify SP formData)) = true).
  { by destruct (Persistence.JSON_stringify SP formData). }
  rewrite Htruthy, Hcodec. do 3 f_equal.
  - destruct (truthy (photo images)) eqn:Hphoto; [|done].
    by apply PersistenceFacts.or_undefined_truthy.
  - destruct (truthy (signature images)) eqn:Hsig; [|done].
    by apply PersistenceFacts.or_undefined_truthy.
Qed.


Lemma save_then_load_witness :
  let saved := Persistence.saveFormToLocalStorage Persistence.roomy
                 Persistence.sample_form Persistence.signature_only
                 Persistence.with_old_photo in
  saved.1 = Normal tt
  ∧ (Persistence.loadFormFromLocalStorage Persistence.roomy saved.2).1
    = Normal {| Persistence.formData := Persistence.JSONRecord Persistence.sample_form;
                Persistence.images :=
                  {| photo := Some "data:image/png;base64,iVBORw==";
                     signature := Some "data:image/png;base64,iVBORw==" |} |}.
Proof.
  apply (save_then_load Persistence.roomy Persistence.sample_form
           Persistence.signature_only Persistence.with_old_photo).
  - intros items k v. reflexivity.
  - vm_compute. discriminate.
  - vm_compute. reflexivity.
Defined.

(** X8. [saveFormToLocalStorage] never throws and touches no key but its
    three.  When [localStorage] refuses the form data, nothing is stored and
    one warning is logged; when it refuses the photo, the form data stays
    stored and the signature is not attempted. *)
Theorem save_never_throws (SP : Persistence.StoragePlatform)
    (formData : gmap string string) (images : ImageData) (b : Persistence.Browser) :
  let saved := Persistence.saveFormToLocalStorage SP formData images b in
  let text := Persistence.JSON_stringify SP formData in
  let warned e := Persistence.console_log b
                  ++ [console_warn_entry "Could not save to localStorage:" e] in
  saved.1 = Normal tt
  ∧ (∀ k, ¬ Persistence.own_key k →
          Persistence.localStorage saved.2 !! k = Persistence.localStorage b !! k)
  ∧ (∀ e, Persistence.setItem_throws SP (Persistence.localStorage b)
            Persistence.form_data_key text = Some e →
          saved.2 = {| Persistence.localStorage := Persistence.localStorage b;
                       Persistence.console_log := warned e |})
  ∧ (∀ e, Persistence.setItem_throws SP (Persistence.localStorage b)
            Persistence.form_data_key text = None →
          truthy (photo images) = true →
          Persistence.setItem_throws SP
            (<[Persistence.form_data_key := text]> (Persistence.localStorage b))
            Persistence.photo_key (to_string (photo images)) = Some e →
          saved.2 = {| Persistence.localStorage :=
                         <[Persistence.form_data_key := text]> (Persistence.localStorage b);
                       Persistence.console_log := warned e |}).
Proof.
  cbv zeta. unfold Persistence.saveFormToLocalStorage. PersistenceFacts.run_in.
  destruct (Persistence.setItem_throws SP (Persistence.localStorage b) _ _)
    as [e1|] eqn:H1.
  { cbn. repeat split; try done. by intros e [= ->]. }
  destruct (truthy (photo images)) eqn:Hphoto; cbn [Persistence.localStorage].
  - destruct (Persistence.setItem_throws SP (<[_ := _]> _) Persistence.photo_key _)
      as [e2|] eqn:H2.
    { cbn. repeat split; try done.
      - intros k Hk. apply lookup_insert_ne. intros <-. apply Hk. by left.
      - by intros e _ _ [= ->]. }
    destruct (truthy (signature images)) eqn:Hsig; cbn [Persistence.localStorage].
    + destruct (Persistence.setItem_throws SP (<[_ := _]> _) Persistence.signature_key _)
        as [e3|] eqn:H3; cbn; (repeat split; try done);
        intros k Hk; rewrite ?lookup_insert_ne; try done;
        intros <-; apply Hk; unfold Persistence.own_key; auto.
    + cbn. repeat split; try done.
      intros k Hk. rewrite !lookup_insert_ne; try done;
        intros <-; apply Hk; unfold Persistence.own_key; auto.
  - destruct (truthy (signature images)) eqn:Hsig; cbn [Persistence.localStorage].
    + destruct (Persistence.setItem_throws SP (<[_ := _]> _) Persistence.signature_key _)
        as [e3|] eqn:H3; cbn; (repeat split; try done);
        intros k Hk; rewrite ?lookup_insert_ne; try done;
        intros <-; apply Hk; unfold Persistence.own_key; auto.
    + cbn. repeat split; try done.
      intros k Hk. rewrite !lookup_insert_ne; try done;
        intros <-; apply Hk; unfold Persistence.own_key; auto.
Qed.

Lemma save_never_throws_witness :
  let saved := Persistence.saveFormToLocalStorage Persistence.cramped
                 Persistence.sample_form Persistence.long_photo
                 Persistence.empty_browser in
  saved.1 = Normal tt
  ∧ saved.2 = {| Persistence.localStorage :=
                   {[ Persistence.form_data_key := Persistence.sample_text ]};
                 Persistence.console_log :=
                   [console_warn_entry "Could not save to localStorage:"
                      (mkExn "QuotaExceededError")] |}.
Proof.
  pose proof (save_never_throws Persistence.cramped Persistence.sample_form
                Persistence.long_photo Persistence.empty_browser) as H.
  cbv zeta in H. destruct H as (Hnormal & _ & _ & Hphoto).
  split; [exact Hnormal|].
  rewrite (Hphoto (mkExn "QuotaExceededError")); [reflexivity|..];
    vm_compute; reflexivity.
Defined.

(** X9. [loadFormFromLocalStorage] never throws and changes nothing.  It
    never returns an empty string for an image.  When the stored form data
    does not parse, the catch returns no images either, whatever is stored
    under the image keys; when no form data is stored (or an empty string),
    the form data is the empty object and the stored images are returned. *)
Theorem load_never_throws (SP : Persistence.StoragePlatform) (b : Persistence.Browser) :
  let result := Persistence.loadFormFromLocalStorage SP b in
  let stored k := Persistence.or_undefined (Persistence.localStorage b !! k) in
  let text := Persistence.localStorage b !! Persistence.form_data_key in
  result.2 = b
  ∧ ∃ loaded, result.1 = Normal loaded
    ∧ photo (Persistence.images loaded) ≠ Some ""
    ∧ signature (Persistence.images loaded) ≠ Some ""
    ∧ (∀ e, truthy text = true →
            Persistence.JSON_parse SP (to_string text) = Throw e →
            loaded = Persistence.nothing_loaded)
    ∧ (truthy text = false →
       loaded = {| Persistence.formData := Persistence.JSONRecord ∅;
                   Persistence.images :=
                     {| photo := stored Persistence.photo_key;
                        signature := stored Persistence.signature_key |} |}).
Proof.
  cbv zeta. rewrite PersistenceFacts.load_run. cbn [fst snd].
  split; [reflexivity|]. eexists. split; [reflexivity|].
  assert (Hnonempty : ∀ v, Persistence.or_undefined v ≠ Some "").
  { intros [[|c s]|]; done. }
  destruct (truthy (Persistence.localStorage b !! Persistence.form_data_key)) eqn:Htext.
  - destruct (Persistence.JSON_parse SP _) as [v|e0] eqn:Hparse; cbn.
    + repeat split; try apply Hnonempty; done.
    + repeat split; done.
  - cbn. repeat split; try apply Hnonempty; done.
Qed.

Lemma load_never_throws_witness :
  Persistence.loadFormFromLocalStorage Persistence.roomy Persistence.with_broken_form
  = (Normal Persistence.nothing_loaded, Persistence.with_broken_form).
Proof.
  pose proof (load_never_throws Persistence.roomy Persistence.with_broken_form) as H.
  cbv zeta in H. destruct H as (Hsame & loaded & Hloaded & _ & _ & Hbroken & _).
  rewrite (Hbroken (mkExn "SyntaxError")) in Hloaded; [|vm_compute; reflexivity..].
  destruct (Persistence.loadFormFromLocalStorage _ _) as [c b'].
  cbn [fst snd] in *. congruence.
Defined.

(** X10. [clearFormLocalStorage] has no [try]: what [removeItem] throws, it
    throws, and the keys removed before stay removed while the later ones
    are kept.  When the three calls go through it removes the three keys
    and leaves every other key and the console alone, and a load after it
    returns the empty form with no images. *)
Theorem clear_then_load (SP : Persistence.StoragePlatform) (b : Persistence.Browser) :
  let items := Persistence.localStorage b in
  let cleared := Persistence.clearFormLocalStorage SP b in
  let left_with items' :=
    {| Persistence.localStorage := items';
       Persistence.console_log := Persistence.console_log b |} in
  (Persistence.removal_allowed SP items →
     cleared.1 = Normal tt
     ∧ (∀ k, Persistence.own_key k → Persistence.localStorage cleared.2 !! k = None)
     ∧ (∀ k, ¬ Persistence.own_key k →
             Persistence.localStorage cleared.2 !! k = items !! k)
     ∧ Persistence.console_log cleared.2 = Persistence.console_log b
     ∧ (Persistence.loadFormFromLocalStorage SP cleared.2).1
       = Normal Persistence.nothing_loaded)
  ∧ (∀ e, Persistence.removeItem_throws SP items Persistence.form_data_key = Some e →
          cleared = (Throw e, b))
  ∧ (∀ e, Persistence.removeItem_throws SP items Persistence.form_data_key = None →
          Persistence.removeItem_throws SP (delete Persistence.form_data_key items)
            Persistence.photo_key = Some e →
          cleared = (Throw e, left_with (delete Persistence.form_data_key items)))
  ∧ (∀ e, Persistence.removeItem_throws SP items Persistence.form_data_key = None →
          Persistence.removeItem_throws SP (delete Persistence.form_data_key items)
            Persistence.photo_key = None →
          Persistence.removeItem_throws SP
            (delete Persistence.photo_key (delete Persistence.form_data_key items))
            Persistence.signature_key = Some e →
          cleared = (Throw e, left_with (delete Persistence.photo_key
                                           (delete Persistence.form_data_key items)))).
Proof.
  cbv zeta. unfold Persistence.clearFormLocalStorage. PersistenceFacts.run_in.
  split; [|split; [|split]].
  - intros (Hform & Hphoto & Hsignature).
    rewrite Hform. cbn [Persistence.localStorage]. rewrite Hphoto.
    cbn [Persistence.localStorage]. rewrite Hsignature.
    rewrite PersistenceFacts.load_run.
    cbn [fst snd Persistence.localStorage Persistence.console_log].
    destruct PersistenceFacts.keys_distinct as (Hfp & Hfs & Hps).
    assert (Hgone : ∀ k, Persistence.own_key k →
      delete Persistence.signature_key
        (delete Persistence.photo_key
           (delete Persistence.form_data_key (Persistence.localStorage b))) !! k = None).
    { intros k [-> | [-> | ->]].
      - rewrite !lookup_delete_ne by done. apply lookup_delete_eq.
      - rewrite lookup_delete_ne by done. apply lookup_delete_eq.
      - apply lookup_delete_eq. }
    repeat split.
    + exact Hgone.
    + intros k Hk. rewrite !lookup_delete_ne; [done|..];
        intros <-; apply Hk; unfold Persistence.own_key; auto.
    + rewrite !Hgone by (unfold Persistence.own_key; auto). reflexivity.
  - intros e Hform. rewrite Hform. by destruct b.
  - intros e Hform Hphoto. rewrite Hform. cbn [Persistence.localStorage].
    by rewrite Hphoto.
  - intros e Hform Hphoto Hsignature. rewrite Hform. cbn [Persistence.localStorage].
    rewrite Hphoto. cbn [Persistence.localStorage]. by rewrite Hsignature.
Qed.

Lemma clear_then_load_witness :
  Persistence.clearFormLocalStorage Persistence.blocked_after_first
    Persistence.with_broken_form
  = (Throw (mkExn "SecurityError"),
     {| Persistence.localStorage :=
          {[ Persistence.photo_key := "data:image/png;base64,iVBORw==" ]};
        Persistence.console_log := [] |})
  ∧ Persistence.localStorage
      (Persistence.clearFormLocalStorage Persistence.roomy
         Persistence.with_broken_form).2 !! Persistence.photo_key = None.
Proof.
  split.
  - pose proof (clear_then_load Persistence.blocked_after_first
                  Persistence.with_broken_form) as H.
    cbv zeta in H. destruct H as (_ & _ & Hsecond & _).
    rewrite (Hsecond (mkExn "SecurityError")); reflexivity.
  - pose proof (clear_then_load Persistence.roomy Persistence.with_broken_form) as H.
    cbv zeta in H. destruct H as (Hallowed & _).
    destruct Hallowed as (_ & Hgone & _).
    + repeat split.
    + apply Hgone. right. left. reflexivity.
Defined.

(** A browser that blocks the storage: the first [removeItem] throws and
    nothing is removed. *)
Example clear_throws_when_blocked :
  Persistence.clearFormLocalStorage Persistence.blocked Persistence.with_broken_form
  = (Throw (mkExn "SecurityError"), Persistence.with_broken_form).
Proof. reflexivity. Qed.


(** ** Downloads *)

Module DownloadFacts.
Import StateExnMonad Download.

Ltac run_dom :=
  cbv [mbind StateExn_bind mret StateExn_ret createObjectURL revokeObjectURL
       createElement_a update_anchor set_href set_download appendChild
       removeChild click].

(** The body does not hold the node that [createElement] gives next. *)
Lemma filter_fresh (p : Page) :
  well_formed p →
  List.filter (λ n, negb (Nat.eqb n (next_node p))) (body p) = body p.
Proof.
  unfold well_formed. generalize (next_node p) as a.
  induction (body p) as [|n l IH]; intros a Hwf; [reflexivity|].
  cbn. assert (n < a) as Hn by (apply Hwf; left).
  destruct (Nat.eqb_spec n a) as [->|_]; [lia|]. cbn. f_equal.
  apply IH. intros m Hm. apply Hwf. by right.
Qed.

Lemma existsb_snoc (a : nat) l : existsb (Nat.eqb a) (l ++ [a]) = true.
Proof. rewrite existsb_app. cbn. rewrite Nat.eqb_refl. apply orb_true_iff. auto. Qed.

Lemma filter_snoc (a : nat) l :
  List.filter (λ n, negb (Nat.eqb n a)) l = l →
  List.filter (λ n, negb (Nat.eqb n a)) (l ++ [a]) = l.
Proof.
  intros Hl. rewrite List.filter_app, Hl. cbn. rewrite Nat.eqb_refl. cbn.
  apply app_nil_r.
Qed.

(** An anchor that was appended and removed again. *)
Lemma append_remove (p : Page) :
  well_formed p →
  let appended := List.filter (λ n, negb (Nat.eqb n (next_node p))) (body p)
                  ++ [next_node p] in
  existsb (Nat.eqb (next_node p)) appended = true
  ∧ List.filter (λ n, negb (Nat.eqb n (next_node p))) appended = body p.
Proof.
  intros Hwf. cbv zeta. rewrite (filter_fresh p Hwf). split.
  - apply existsb_snoc.
  - apply filter_snoc, filter_fresh, Hwf.
Qed.

End DownloadFacts.

(** X11. [downloadPdf] never throws on a page that does not yet hold the
    new anchor.  It starts exactly one download: of a blob with the given
    bytes and type [application/pdf], saved under the given file name.
    Afterwards the body has the children it had, and the object URL is
    revoked again. *)
Theorem downloadPdf_starts_one_download
    (mint_url : gmap string Download.Blob → Download.Blob → string)
    (pdfBytes : list byte) (filename : string) (p : Download.Page) :
  let blob := {| Download.blob_bytes := pdfBytes;
                 Download.blob_type := "application/pdf" |} in
  let url := mint_url (Download.objectURLs p) blob in
  let result := Download.downloadPdf mint_url pdfBytes filename p in
  Download.well_formed p →
  Download.objectURLs p !! url = None →
  result.1 = Normal tt
  ∧ Download.started result.2
    = Download.started p
      ++ [{| Download.started_from := url; Download.saved_as := filename;
             Download.content := Some blob |}]
  ∧ Download.body result.2 = Download.body p
  ∧ Download.objectURLs result.2 = Download.objectURLs p
  ∧ Download.well_formed result.2.
Proof.
  cbv zeta. intros Hwf Hfresh.
  destruct (DownloadFacts.append_remove p Hwf) as [Hchild Hbody]. cbv zeta in *.
  unfold Download.downloadPdf. DownloadFacts.run_dom.
  cbn [Download.next_node Download.anchors Download.body Download.objectURLs
       Download.started].
  rewrite !lookup_alter_eq, lookup_insert_eq. cbn [fmap option_fmap option_map].
  cbn [Download.next_node Download.anchors Download.body Download.objectURLs
       Download.started Download.href Download.download].
  rewrite Hchild. cbn [fst snd Download.next_node Download.anchors Download.body
                       Download.objectURLs Download.started].
  rewrite Hbody, lookup_insert_eq.
  repeat split.
  - apply delete_insert_id, Hfresh.
  - intros n Hn. cbn. specialize (Hwf n Hn). lia.
Qed.

Lemma downloadPdf_starts_one_download_witness :
  Download.started
    (Download.downloadPdf Download.sample_mint Download.pdf_header "form.pdf"
       Download.sample_page).2
  = [{| Download.started_from := "blob:https://hstu-dojo.github.io/i";
        Download.saved_as := "form.pdf";
        Download.content := Some {| Download.blob_bytes := Download.pdf_header;
                                    Download.blob_type := "application/pdf" |} |}].
Proof.
  apply (downloadPdf_starts_one_download Download.sample_mint Download.pdf_header
           "form.pdf" Download.sample_page).
  - intros n Hn. apply list_elem_of_singleton in Hn. subst n. cbn. lia.
  - reflexivity.
Defined.

(** X12. [downloadBlankForm] never throws on a page that does not yet hold
    the new anchor.  It starts exactly one download, from the address that
    [fillPdfForm] fetches its template from, saved as
    [HSTU_Karate_Dojo_Form_Blank.pdf]; the body and the object URLs are
    afterwards as they were. *)
Theorem downloadBlankForm_starts_one_download (P : Platform)
    (T : FormTables) (formValues : gmap string string) (images : ImageData)
    (w : World) (p : Download.Page) :
  let result := Download.downloadBlankForm P p in
  Download.well_formed p →
  result.1 = Normal tt
  ∧ (∃ blob,
       Download.started result.2
       = Download.started p
         ++ [{| Download.started_from := BASE_PATH P +:+ "/blank-form.pdf";
                Download.saved_as := "HSTU_Karate_Dojo_Form_Blank.pdf";
                Download.content := blob |}])
  ∧ head (drop (length (calls w)) (calls (fillPdfForm P T formValues images w).2))
    = Some (call_fetch (BASE_PATH P +:+ "/blank-form.pdf"))
  ∧ Download.body result.2 = Download.body p
  ∧ Download.objectURLs result.2 = Download.objectURLs p.
Proof.
  cbv zeta. intros Hwf.
  destruct (DownloadFacts.append_remove p Hwf) as [Hchild Hbody]. cbv zeta in *.
  unfold Download.downloadBlankForm. DownloadFacts.run_dom.
  cbn [Download.next_node Download.anchors Download.body Download.objectURLs
       Download.started].
  rewrite !lookup_alter_eq, lookup_insert_eq. cbn [fmap option_fmap option_map].
  cbn [Download.next_node Download.anchors Download.body Download.objectURLs
       Download.started Download.href Download.download].
  rewrite Hchild. cbn [fst snd Download.next_node Download.anchors Download.body
                       Download.objectURLs Download.started].
  rewrite Hbody.
  repeat split.
  - eexists. reflexivity.
  - rewrite EffectFacts.fillPdfForm_run. unfold fillPdfForm_outcome.
    destruct (net_fetch P _) as [pdfBytes|e]; [destruct (pdf_load P pdfBytes)|];
      cbn [snd calls with_calls]; by rewrite drop_app_length.
Qed.

Lemma downloadBlankForm_starts_one_download_witness :
  Download.started (Download.downloadBlankForm Samples.working Download.sample_page).2
  = [{| Download.started_from := "/blank-form.pdf";
        Download.saved_as := "HSTU_Karate_Dojo_Form_Blank.pdf";
        Download.content := None |}]
  ∧ Download.body (Download.downloadBlankForm Samples.working Download.sample_page).2
    = [0].
Proof.
  destruct (downloadBlankForm_starts_one_download Samples.working Samples.tables
              Samples.sample_values Samples.no_images Samples.new_world
              Download.sample_page) as (_ & _ & _ & Hbody & _).
  - intros n Hn. apply list_elem_of_singleton in Hn. subst n. cbn. lia.
  - split; [reflexivity | exact Hbody].
Defined.

(** ** Uploads *)

Module UploadFacts.
Import Upload.

(** The three types [validateImage] accepts. *)
Lemma accepted_types (file : Validation.File) (type : Validation.ImageKind) :
  Validation.type_accepted file type = true →
  Validation.file_type file = "image/jpeg" ∨ Validation.file_type file = "image/png"
  ∨ Validation.file_type file = "image/jpg".
Proof.
  unfold Validation.type_accepted. destruct type; cbn;
    rewrite !orb_true_iff, !String.eqb_eq; intuition discriminate.
Qed.

Lemma valid_accepted img file type :
  Validation.valid (Validation.validateImage img file type) = true →
  Validation.type_accepted file type = true.
Proof.
  destruct (img file) as [width height|] eqn:Himg.
  - rewrite (ValidationFacts.valid_onload _ _ _ _ _ Himg).
    by intros [[? _]%andb_true_iff _]%andb_true_iff.
  - by rewrite (ValidationFacts.valid_onerror _ _ _ Himg).
Qed.

(** The data URL of an upload of an accepted type. *)
Lemma readAsDataURL_accepted R u type :
  Validation.type_accepted (as_File u) type = true →
  readAsDataURL R u
  = ("data:" +:+ upload_type u +:+ ";base64") +:+ "," +:+ Base64.btoa (upload_bytes u)
  ∧ contains_char "," ("data:" +:+ upload_type u +:+ ";base64") = false.
Proof.
  intros H. apply accepted_types in H. cbn in H. unfold readAsDataURL.
  destruct H as [-> | [-> | ->]]; by split.
Qed.

(** [includes] looks past a header that ends in a comma. *)
Lemma includes_jpeg_header rest :
  includes "image/png" ("data:image/jpeg;base64," +:+ rest)
  = includes "image/png" rest.
Proof.
  change ("data:image/jpeg;base64," +:+ rest)
    with (String "d" (String "a" (String "t" (String "a" (String ":" (String "i"
         (String "m" (String "a" (String "g" (String "e" (String "/" (String "j"
         (String "p" (String "e" (String "g" (String ";" (String "b" (String "a"
         (String "s" (String "e" (String "6" (String "4" (String "," rest))))))))))))))))))))))).
  reflexivity.
Qed.

Lemma includes_jpg_header rest :
  includes "image/png" ("data:image/jpg;base64," +:+ rest)
  = includes "image/png" rest.
Proof.
  change ("data:image/jpg;base64," +:+ rest)
    with (String "d" (String "a" (String "t" (String "a" (String ":" (String "i"
         (String "m" (String "a" (String "g" (String "e" (String "/" (String "j"
         (String "p" (String "g" (String ";" (String "b" (String "a"
         (String "s" (String "e" (String "6" (String "4" (String "," rest)))))))))))))))))))))).
  reflexivity.
Qed.

End UploadFacts.

(** X13. An upload that [validateImage] found valid and that the reader
    could read comes back byte for byte: [readFileAsDataUrl] resolves with a
    data URL from which [dataUrlToUint8Array] returns exactly the file's
    bytes. *)
Theorem valid_upload_reads_back (R : Upload.FileReader)
    (img : Validation.File → Validation.ImageEvent) (u : Upload.UploadedFile)
    (type : Validation.ImageKind) :
  Validation.valid (Validation.validateImage img (Upload.as_File u) type) = true →
  Upload.reader_error R u = None →
  ∃ dataUrl, Upload.readFileAsDataUrl R u = Normal dataUrl
             ∧ dataUrlToUint8Array dataUrl = Normal (Upload.upload_bytes u).
Proof.
  intros Hvalid Hread. apply UploadFacts.valid_accepted in Hvalid.
  destruct (UploadFacts.readAsDataURL_accepted R u type Hvalid) as [Hurl Hheader].
  exists (Upload.readAsDataURL R u). unfold Upload.readFileAsDataUrl.
  rewrite Hread. split; [reflexivity|]. rewrite Hurl.
  rewrite DataUrlFacts.dataUrlToUint8Array_payload
    by (done || apply Base64Facts.btoa_no_comma).
  rewrite Base64Facts.atob_btoa. cbn.
  rewrite list_ascii_of_string_of_list_ascii, !map_map. f_equal.
  rewrite <- (map_id (Upload.upload_bytes u)) at 2. apply map_ext. intros x.
  apply DataUrlFacts.to_uint8_of_byte.
Qed.

Lemma valid_upload_reads_back_witness :
  ∃ dataUrl, Upload.readFileAsDataUrl Upload.sample_reader Upload.png_upload
             = Normal dataUrl
             ∧ dataUrlToUint8Array dataUrl = Normal [x89; x50; x4e; x47; x0d].
Proof.
  apply (valid_upload_reads_back Upload.sample_reader
           (λ _, Validation.onload 300 360) Upload.png_upload Validation.Photo);
    reflexivity.
Defined.

(** X14. A photo that [validateImage] found valid, read with
    [readFileAsDataUrl] and handed to [fillPdfForm], is embedded with
    exactly the file's bytes.  A file of type [image/png] goes to
    [embedPng]; a JPEG goes to [embedJpg] unless its base64 text spells
    [image/png].  When embedding and drawing answer, the image is on the
    first page at the photo box. *)
Theorem valid_photo_embedded_unchanged (P : Platform) (T : FormTables)
    (R : Upload.FileReader) (img : Validation.File → Validation.ImageEvent)
    (u : Upload.UploadedFile) (formValues : gmap string string)
    (signature : option string) (w : World) (pdfBytes : list byte) :
  let bytes := Upload.upload_bytes u in
  let as_png := String.eqb (Upload.upload_type u) "image/png"
                || includes "image/png" (Base64.btoa bytes) in
  let image := if as_png then PngImage bytes else JpgImage bytes in
  let embed := if as_png then call_embedPng bytes else call_embedJpg bytes in
  let answer := if as_png then pdf_embedPng P bytes else pdf_embedJpg P bytes in
  let result := fillPdfForm P T formValues
                  {| photo := Some (Upload.readAsDataURL R u);
                     signature := signature |} w in
  Validation.valid (Validation.validateImage img (Upload.as_File u) Validation.Photo)
    = true →
  net_fetch P (BASE_PATH P +:+ "/blank-form.pdf") = Normal pdfBytes →
  pdf_load P pdfBytes = Normal tt →
  embed ∈ calls result.2
  ∧ (answer = Normal tt →
     page_drawImage P image (PHOTO_BOX T) = Normal tt →
     (image, PHOTO_BOX T) ∈ firstPage (pdfDoc result.2)).
Proof.
  cbv zeta. intros Hvalid Hfetch Hload.
  apply UploadFacts.valid_accepted in Hvalid.
  destruct (UploadFacts.readAsDataURL_accepted R u _ Hvalid) as [Hurl Hheader].
  set (bytes := Upload.upload_bytes u) in *.
  set (dataUrl := Upload.readAsDataURL R u) in *.
  assert (Hbytes : dataUrlToUint8Array dataUrl = Normal bytes).
  { rewrite Hurl, DataUrlFacts.dataUrlToUint8Array_payload
      by (done || apply Base64Facts.btoa_no_comma).
    rewrite Base64Facts.atob_btoa. cbn.
    rewrite list_ascii_of_string_of_list_ascii, !map_map. f_equal.
    rewrite <- (map_id bytes) at 2. apply map_ext. intros x.
    apply DataUrlFacts.to_uint8_of_byte. }
  assert (Htype : getImageType dataUrl
                  = if String.eqb (Upload.upload_type u) "image/png"
                       || includes "image/png" (Base64.btoa bytes)
                    then png else jpg).
  { unfold getImageType. rewrite Hurl.
    apply UploadFacts.accepted_types in Hvalid. cbn in Hvalid.
    destruct Hvalid as [-> | [-> | ->]].
    - change (("data:" +:+ "image/jpeg" +:+ ";base64") +:+ "," +:+ Base64.btoa bytes)
        with ("data:image/jpeg;base64," +:+ Base64.btoa bytes).
      by rewrite UploadFacts.includes_jpeg_header.
    - change (("data:" +:+ "image/png" +:+ ";base64") +:+ "," +:+ Base64.btoa bytes)
        with ("data:image/png" +:+ (";base64," +:+ Base64.btoa bytes)).
      by destruct (";base64," +:+ Base64.btoa bytes).
    - change (("data:" +:+ "image/jpg" +:+ ";base64") +:+ "," +:+ Base64.btoa bytes)
        with ("data:image/jpg;base64," +:+ Base64.btoa bytes).
      by rewrite UploadFacts.includes_jpg_header. }
  assert (Htruthy : truthy (Some dataUrl) = true).
  { rewrite Hurl. apply UploadFacts.accepted_types in Hvalid. cbn in Hvalid.
    by destruct Hvalid as [-> | [-> | ->]]. }
  rewrite EffectFacts.fillPdfForm_run. unfold fillPdfForm_outcome. cbv zeta.
  rewrite Hfetch, Hload. cbn [snd calls pdfDoc firstPage filled_document].
  unfold fill_effect.
  cbn [all_effects foldr then_effect eff_calls eff_drawn failed no_effect photo].
  set (photo_effect := asset_effect P (Some dataUrl) (PHOTO_BOX T) _).
  assert (Hphoto : photo_effect
            = embed_and_draw P
                (if String.eqb (Upload.upload_type u) "image/png"
                    || includes "image/png" (Base64.btoa bytes)
                 then call_embedPng bytes else call_embedJpg bytes)
                (if String.eqb (Upload.upload_type u) "image/png"
                    || includes "image/png" (Base64.btoa bytes)
                 then pdf_embedPng P bytes else pdf_embedJpg P bytes)
                (if String.eqb (Upload.upload_type u) "image/png"
                    || includes "image/png" (Base64.btoa bytes)
                 then PngImage bytes else JpgImage bytes)
                (PHOTO_BOX T)
                (λ e, [console_error_entry "Error embedding photo:" e])).
  { subst photo_effect. unfold asset_effect. rewrite Htruthy. cbn [to_string].
    rewrite Hbytes, Htype. by destruct (_ || _). }
  rewrite Hphoto. clear Hphoto photo_effect. split.
  - rewrite !elem_of_app. right. right. left. right. right. left.
    unfold embed_and_draw.
    destruct (if _ || _ then pdf_embedPng P bytes else pdf_embedJpg P bytes)
      as [[]|e]; [destruct (page_drawImage P _ _) as [[]|e]|]; cbn; left.
  - intros -> Hdraw. unfold embed_and_draw. rewrite Hdraw.
    cbn [eff_drawn]. rewrite !elem_of_app. right. right. left. left.
Qed.

Lemma valid_photo_embedded_unchanged_witness :
  (PngImage [x89; x50; x4e; x47; x0d], PHOTO_BOX Samples.tables)
  ∈ firstPage (pdfDoc (fillPdfForm Samples.working Samples.tables Samples.sample_values
                         {| photo := Some (Upload.readAsDataURL Upload.sample_reader
                                             Upload.png_upload);
                            signature := None |} Samples.new_world).2).
Proof.
  apply (valid_photo_embedded_unchanged Samples.working Samples.tables
           Upload.sample_reader (λ _, Validation.onload 300 360) Upload.png_upload
           Samples.sample_values None Samples.new_world [x25; x50; x44; x46]);
    reflexivity.
Defined.

(** X15. A data URL without a comma has no second piece: [split(",")[1]] is
    [undefined], [atob] is given the text [undefined] and throws
    [InvalidCharacterError].  Given as the photo, such a string leaves the
    photo out: the error is logged and neither [embedPng] nor [embedJpg] is
    called for it. *)
Theorem dataUrl_without_comma (P : Platform) (T : FormTables) (dataUrl : string)
    (formValues : gmap string string) (signature : option string) (w : World)
    (pdfBytes : list byte) :
  let images := {| photo := Some dataUrl; signature := signature |} in
  contains_char "," dataUrl = false →
  dataUrlToUint8Array dataUrl = Throw Base64.InvalidCharacterError
  ∧ (dataUrl ≠ "" →
     net_fetch P (BASE_PATH P +:+ "/blank-form.pdf") = Normal pdfBytes →
     pdf_load P pdfBytes = Normal tt →
     asset_effect P (photo images) (PHOTO_BOX T) "Error embedding photo:"
     = failed [] [console_error_entry "Error embedding photo:"
                    Base64.InvalidCharacterError]
     ∧ console_error_entry "Error embedding photo:" Base64.InvalidCharacterError
       ∈ console (fillPdfForm P T formValues images w).2).
Proof.
  cbv zeta. intros Hcomma.
  assert (Hthrow : dataUrlToUint8Array dataUrl = Throw Base64.InvalidCharacterError).
  { rewrite DataUrlFacts.dataUrlToUint8Array_copies.
    by rewrite (DataUrlFacts.split_no_sep _ _ Hcomma). }
  split; [exact Hthrow|]. intros Hnonempty Hfetch Hload.
  assert (Heffect : asset_effect P (Some dataUrl) (PHOTO_BOX T) "Error embedding photo:"
            = failed [] [console_error_entry "Error embedding photo:"
                           Base64.InvalidCharacterError]).
  { unfold asset_effect. cbn [to_string]. rewrite Hthrow.
    by destruct dataUrl. }
  split; [exact Heffect|].
  rewrite EffectFacts.fillPdfForm_run. unfold fillPdfForm_outcome. cbv zeta.
  rewrite Hfetch, Hload. cbn [snd console]. unfold fill_effect.
  cbn [all_effects foldr then_effect eff_log failed no_effect photo].
  rewrite Heffect. cbn [eff_log failed].
  rewrite !elem_of_app, !elem_of_cons. auto 10.
Qed.

Lemma dataUrl_without_comma_witness :
  dataUrlToUint8Array "iVBORw0KGgo=" = Throw Base64.InvalidCharacterError.
Proof.
  apply (dataUrl_without_comma Samples.working Samples.tables "iVBORw0KGgo="
           Samples.sample_values None Samples.new_world [x25; x50; x44; x46]).
  reflexivity.
Defined.

(** X16. [dataUrlToUint8Array] reads nothing but the text between the first
    and the second comma: the header is not looked at, and what follows a
    second comma is dropped. *)
Theorem dataUrl_second_piece_only (header header' payload rest : string) :
  contains_char "," header = false →
  contains_char "," header' = false →
  contains_char "," payload = false →
  dataUrlToUint8Array (header +:+ "," +:+ payload +:+ "," +:+ rest)
  = dataUrlToUint8Array (header' +:+ "," +:+ payload).
Proof.
  intros Hheader Hheader' Hpayload.
  rewrite (DataUrlFacts.dataUrlToUint8Array_payload header' payload) by done.
  rewrite DataUrlFacts.dataUrlToUint8Array_copies.
  change ("," +:+ payload +:+ "," +:+ rest)
    with (String "," (payload +:+ String "," rest)).
  by rewrite !DataUrlFacts.split_header.
Qed.

Lemma dataUrl_second_piece_only_witness :
  dataUrlToUint8Array ("data:image/png;base64" +:+ "," +:+ "iVBORw==" +:+ "," +:+ "AAAA")
  = dataUrlToUint8Array ("" +:+ "," +:+ "iVBORw==").
Proof.
  apply (dataUrl_second_piece_only "data:image/png;base64" "" "iVBORw==" "AAAA");
    reflexivity.
Defined.

(** ** A field and its overlay *)

Module OverlayFacts.
Section Readings.
Context (P : Platform) (T : FormTables).






End Readings.
End OverlayFacts.


